(** * The Docs Bot bridge: answer gate, answering client, classifier, formatter

    A shallow embedding of the strict-answer version of the bridge
    ([index.mjs] with [STRICT_ANSWERS], [MIN_SOURCES], [MIN_ANSWER_CHARS] and
    [MIN_CONFIDENCE]) and the properties of its gate, its API client, its
    ambient-message classifier, its formatter and its conversation map.

    - JavaScript strings are sequences of UTF-16 code units ([list N]);
      [length] is the code-unit count, as [String.prototype.length] is.
    - JavaScript numbers are IEEE binary64 values (primitive [float]).
    - Values coming out of [JSON.parse] are the inductive [value].
    - An exception is the [Throw] case of [outcome]; [try]/[catch] is a match.
    - What the host computes from tables that are not part of the repository
      (Unicode lower-casing, decimal/number conversions) is a [Runtime]
      parameter: the general theorems hold for every runtime, and the
      examples are evaluated with [asciiRuntime].
    - Console output is not modelled. *)

From Stdlib Require Import ZArith NArith List String Ascii Bool Floats Uint63 Lia.
From stdpp Require Import base option gmap sets.
Import ListNotations.

Set Warnings "-inexact-float,-register-all".

(** ** Strings as UTF-16 code units *)

Abbreviation jsstr := (list N).

(** An ASCII literal as a JavaScript string (one code unit per character). *)
Definition js (s : string) : jsstr := map N_of_ascii (list_ascii_of_string s).

(** [WhiteSpace] and [LineTerminator] code units: what [trim] strips and
    what [\s] matches. *)
Definition isWhiteSpace (c : N) : bool :=
  ((9 <=? c) && (c <=? 13) || (c =? 32) || (c =? 160) || (c =? 5760)
   || (8192 <=? c) && (c <=? 8202) || (c =? 8232) || (c =? 8233)
   || (c =? 8239) || (c =? 8287) || (c =? 12288) || (c =? 65279))%N.

Fixpoint trimStart (s : jsstr) : jsstr :=
  match s with
  | c :: r => if isWhiteSpace c then trimStart r else s
  | [] => []
  end.

Definition trimEnd (s : jsstr) : jsstr := rev (trimStart (rev s)).

Definition trim (s : jsstr) : jsstr := trimEnd (trimStart s).

Definition str_eqb (a b : jsstr) : bool := bool_decide (a = b).

(** [s.startsWith(p)] *)
Fixpoint startsWith (s p : jsstr) : bool :=
  match p, s with
  | [], _ => true
  | _ :: _, [] => false
  | a :: p', c :: s' => (a =? c)%N && startsWith s' p'
  end.

(** [s.includes(p)] *)
Fixpoint includes (s p : jsstr) : bool :=
  startsWith s p ||
  match s with
  | [] => false
  | _ :: r => includes r p
  end.

Definition isEmpty (s : jsstr) : bool :=
  match s with
  | [] => true
  | _ :: _ => false
  end.

(** [s.slice(0, n)] for a non-negative [n] *)
Definition slice0 (n : nat) (s : jsstr) : jsstr := firstn n s.
Arguments slice0 : simpl never.

(** [parts.join(sep)] on strings *)
Fixpoint join (sep : jsstr) (parts : list jsstr) : jsstr :=
  match parts with
  | [] => []
  | [p] => p
  | p :: rest => p ++ sep ++ join sep rest
  end.

(** Lower-casing of the ASCII letters; the other code units are kept. This
    is [toLowerCase] on ASCII text. *)
Definition asciiLower (s : jsstr) : jsstr :=
  map (fun c => if ((65 <=? c) && (c <=? 90))%N then (c + 32)%N else c) s.

(** ** Numbers *)

Definition isFinite (x : float) : bool := negb (is_nan x) && negb (is_infinity x).

(** A length as a number. String and array lengths are below 2^53, where
    the conversion is exact. *)
Definition lengthNum {A} (l : list A) : float :=
  PrimFloat.of_uint63 (Uint63.of_Z (Z.of_nat (length l))).

(** ** Exceptions *)

Inductive error : Type :=
| TypeError
| SyntaxError
| NetworkError
| AbortError
| HttpError (status : N)
| Unsupported.

Inductive outcome (A : Type) : Type :=
| Ret (a : A)
| Throw (e : error).
Arguments Ret {A} a.
Arguments Throw {A} e.

#[global] Instance outcome_ret : MRet outcome := @Ret.

#[global] Instance outcome_bind : MBind outcome := fun A B k m =>
  match m with
  | Ret a => k a
  | Throw e => Throw e
  end.

(** [try { m } catch { h }] *)
Definition try_catch {A} (m : outcome A) (h : error -> A) : A :=
  match m with
  | Ret a => a
  | Throw e => h e
  end.

(** ** Values *)

Inductive value : Type :=
| VUndefined
| VNull
| VBool (b : bool)
| VNum (n : float)
| VStr (s : jsstr)
| VArr (items : list value)
| VObj (fields : list (jsstr * value)).

Definition isNullish (v : value) : bool :=
  match v with
  | VUndefined | VNull => true
  | _ => false
  end.

(** [Boolean(v)]: the falsy values are undefined, null, false, 0, -0, NaN
    and the empty string. *)
Definition truthy (v : value) : bool :=
  match v with
  | VUndefined | VNull => false
  | VBool b => b
  | VNum n => negb (is_nan n || PrimFloat.eqb n 0)
  | VStr s => match s with [] => false | _ => true end
  | VArr _ | VObj _ => true
  end.

Fixpoint assoc (k : jsstr) (fields : list (jsstr * value)) : value :=
  match fields with
  | [] => VUndefined
  | (k', v) :: rest => if str_eqb k k' then v else assoc k rest
  end.

(** [v[k]] for a non-nullish [v] and one of the property names this program
    reads ([event], [data], [answer], [sources], [title], [url] and the
    score names): only an object parsed from JSON has such a property. *)
Definition prop (v : value) (k : string) : value :=
  match v with
  | VObj fields => assoc (js k) fields
  | _ => VUndefined
  end.

(** [v?.k] *)
Definition getOpt (v : value) (k : string) : value :=
  if isNullish v then VUndefined else prop v k.

(** [v.k], a [TypeError] on undefined and null *)
Definition getDot (v : value) (k : string) : outcome value :=
  if isNullish v then Throw TypeError else Ret (prop v k).

(** [a || b] *)
Definition or_ (a b : value) : value := if truthy a then a else b.

(** [a ?? b] *)
Definition coalesce (a b : value) : value := if isNullish a then b else a.

Definition isArray (v : value) : bool :=
  match v with
  | VArr _ => true
  | _ => false
  end.

(** [Array.isArray(v) ? v : []] *)
Definition arrayOrEmpty (v : value) : list value :=
  match v with
  | VArr items => items
  | _ => []
  end.

(** ** The host runtime

    [toLowerCase] is [String.prototype.toLowerCase]. [ToNumberExt] is
    [ToNumber] on the values whose conversion needs the host's numeric
    literal reader ([StringToNumber], after [ToPrimitive] for an array or an
    object, which can throw). [ToStringExt] is [ToString] on the values
    whose conversion needs the host's number printer. *)
Record Runtime : Type := {
  toLowerCase : jsstr -> jsstr;
  ToNumberExt : value -> outcome float;
  ToStringExt : value -> outcome jsstr;
}.

(** The runtime used to evaluate the model on examples: exact on ASCII text
    and on undefined, null, boolean and number values; a conversion that
    needs the host's decimal tables raises [Unsupported]. *)
Definition asciiRuntime : Runtime := {|
  toLowerCase := asciiLower;
  ToNumberExt := fun _ => Throw Unsupported;
  ToStringExt := fun _ => Throw Unsupported;
|}.

(** ** Regular expressions

    The fragment of the regular-expression language the source uses, under
    the [i] flag: literal text, a character class, [\s+], concatenation and
    alternation. *)

Inductive regex : Type :=
| Str (w : jsstr)
| Cls (cs : list N)
| Ws1
| Cat (a b : regex)
| Alt (a b : regex).

(** [Canonicalize] under the [i] flag without the [u] flag: the upper-case
    mapping, except that a code unit outside ASCII is never mapped into
    ASCII. It is written out on ASCII; the only other code unit a pattern of
    this program names is U+2019, which has no case. *)
Definition canon (c : N) : N :=
  if ((97 <=? c) && (c <=? 122))%N then (c - 32)%N else c.

Definition ciEq (p c : N) : bool := (canon p =? canon c)%N.

(** The rest of [s] after the literal [w], compared under [canon]. *)
Fixpoint ciPrefix (w s : jsstr) : option jsstr :=
  match w, s with
  | [], _ => Some s
  | _ :: _, [] => None
  | p :: w', c :: s' => if ciEq p c then ciPrefix w' s' else None
  end.

(** The rests of [s] after one or more white-space code units. *)
Fixpoint spaces1 (s : jsstr) : list jsstr :=
  match s with
  | c :: r => if isWhiteSpace c then r :: spaces1 r else []
  | [] => []
  end.

(** Every way [re] matches at the start of [s], as the rest after the match
    (backtracking explores exactly these). *)
Fixpoint run (re : regex) (s : jsstr) : list jsstr :=
  match re with
  | Str w => match ciPrefix w s with Some r => [r] | None => [] end
  | Cls cs =>
      match s with
      | c :: r => if existsb (fun p => ciEq p c) cs then [r] else []
      | [] => []
      end
  | Ws1 => spaces1 s
  | Cat a b => flat_map (run b) (run a s)
  | Alt a b => run a s ++ run b s
  end.

Definition matchesAt (re : regex) (s : jsstr) : bool :=
  match run re s with
  | [] => false
  | _ :: _ => true
  end.

(** [re.test(s)] for a regex without the [g] and [y] flags: a match at some
    position of [s]. *)
Fixpoint test (re : regex) (s : jsstr) : bool :=
  matchesAt re s ||
  match s with
  | [] => false
  | _ :: r => test re r
  end.

(** The language of a regex: the texts a match covers. *)
Fixpoint matches (re : regex) (m : jsstr) : Prop :=
  match re with
  | Str w => ciPrefix w m = Some []
  | Cls cs => exists c, m = [c] /\ existsb (fun p => ciEq p c) cs = true
  | Ws1 => m <> [] /\ forallb isWhiteSpace m = true
  | Cat a b => exists m1 m2, m = m1 ++ m2 /\ matches a m1 /\ matches b m2
  | Alt a b => matches a m \/ matches b m
  end.

(** A regex every match of which starts with a code unit that is not white
    space, and one every match of which ends with such a code unit. *)
Fixpoint startsSolid (re : regex) : bool :=
  match re with
  | Str w => match w with p :: _ => negb (isWhiteSpace p) | [] => false end
  | Cls cs => forallb (fun p => negb (isWhiteSpace p)) cs
  | Ws1 => false
  | Cat a _ => startsSolid a
  | Alt a b => startsSolid a && startsSolid b
  end.

Fixpoint endsSolid (re : regex) : bool :=
  match re with
  | Str w => match rev w with p :: _ => negb (isWhiteSpace p) | [] => false end
  | Cls cs => forallb (fun p => negb (isWhiteSpace p)) cs
  | Ws1 => false
  | Cat _ b => endsSolid b
  | Alt a b => endsSolid a && endsSolid b
  end.

(** The concatenation of the parts of a pattern, in order. *)
Fixpoint seq (parts : list regex) : regex :=
  match parts with
  | [] => Str []
  | [r] => r
  | r :: rest => Cat r (seq rest)
  end.

Definition lit (w : string) : regex := Str (js w).

(** ['] or U+2019 *)
Definition apostrophe : regex := Cls [39%N; 8217%N].

Definition FALLBACK_PATTERNS : list regex := [
  seq [lit "i"; Ws1; lit "don"; apostrophe; lit "t"; Ws1; lit "know"];
  seq [lit "not"; Ws1; lit "sure"];
  seq [lit "please"; Ws1; lit "clarify"];
  seq [lit "can"; Ws1; lit "you"; Ws1; lit "clarify"];
  seq [lit "i"; Ws1; lit "could"; Ws1; lit "not"; Ws1; lit "find"];
  seq [lit "couldn"; apostrophe; lit "t"; Ws1; lit "find"];
  seq [lit "no"; Ws1; lit "information"];
  lit "unsure";
  seq [lit "as"; Ws1; lit "an"; Ws1; lit "ai"];
  seq [lit "i"; Ws1; lit "do"; Ws1; lit "not"; Ws1; lit "have"; Ws1;
       lit "enough"; Ws1; lit "context"];
  seq [lit "i"; Ws1; lit "can"; Alt (lit "not") (lit "'t"); Ws1; lit "help";
       Ws1; lit "with"; Ws1; lit "that"];
  seq [lit "try"; Ws1; lit "again"];
  lit "rephrase"
].

(** ** Gate configuration

    [STRICT], [MIN_SRC], [MIN_LEN] and [MIN_CONF] as the module computes
    them once from the environment: the three minima are numbers, each NaN
    when its variable does not parse. *)
Record GateConfig : Type := {
  STRICT : bool;
  MIN_SRC : float;
  MIN_LEN : float;
  MIN_CONF : float;
}.

(** The configuration of an empty environment. *)
Definition defaultConfig : GateConfig :=
  {| STRICT := true; MIN_SRC := 1; MIN_LEN := 40; MIN_CONF := 0.35 |}.

Section Gate.
Variable rt : Runtime.
Variable cfg : GateConfig.

Definition looksLikeFallback (text : jsstr) : bool :=
  match text with
  | [] => true
  | _ =>
      let t := trim text in
      if (length t =? 0)%nat then true
      else if (lengthNum t <? MIN_LEN cfg)%float then true
      else existsb (fun re => test re t) FALLBACK_PATTERNS
  end.

(** [Number(v)] *)
Definition Number (v : value) : outcome float :=
  match v with
  | VUndefined => Ret nan
  | VNull => Ret 0%float
  | VBool b => Ret (if b then 1 else 0)%float
  | VNum n => Ret n
  | VStr _ | VArr _ | VObj _ => ToNumberExt rt v
  end.

(** [for (const v of vs) { const n = Number(v); if (Number.isFinite(n)) return n; }]
    with [None] when the loop falls through. *)
Fixpoint firstFinite (vs : list value) : outcome (option float) :=
  match vs with
  | [] => Ret None
  | v :: rest =>
      n ← Number v;
      if isFinite n then Ret (Some n) else firstFinite rest
  end.

(** [s?.score ?? s?.confidence ?? s?.similarity] *)
Definition sourceScore (s : value) : value :=
  coalesce (getOpt s "score") (coalesce (getOpt s "confidence") (getOpt s "similarity")).

Definition extractConfidence (candidate : value) : outcome float :=
  let d := or_ (getOpt candidate "data") (VObj []) in
  let cands := [prop d "confidence"; prop d "score"; prop d "relevance";
                prop d "similarity"; prop d "lookup_score"] in
  r ← firstFinite cands;
  match r with
  | Some n => Ret n
  | None =>
      let sources := arrayOrEmpty (prop d "sources") in
      r' ← firstFinite (map sourceScore sources);
      match r' with
      | Some n => Ret n
      | None => Ret nan
      end
  end.

Definition normalizeConfidence (x : float) : float :=
  if negb (isFinite x) then nan
  else if (1 <? x)%float then (x / 100)%float else x.

Definition passesStrictGate (answer : jsstr) (sources : value) (chosen : value)
  : outcome bool :=
  if negb (STRICT cfg) then Ret true
  else if looksLikeFallback answer then Ret false
  else
    let src := List.filter truthy (arrayOrEmpty sources) in
    if (0 <? MIN_SRC cfg)%float && (lengthNum src <? MIN_SRC cfg)%float then Ret false
    else
      raw ← extractConfidence chosen;
      let conf := normalizeConfidence raw in
      if isFinite conf && (conf <? MIN_CONF cfg)%float then Ret false
      else Ret true.

End Gate.

(** *** The confidence scan, as one list

    [confidenceCandidates] lists the values [extractConfidence] converts, in
    the order it converts them. *)

(** [candidate?.data || {}] *)
Definition payloadOf (candidate : value) : value :=
  or_ (getOpt candidate "data") (VObj []).

Definition confidenceCandidates (candidate : value) : list value :=
  let d := payloadOf candidate in
  [prop d "confidence"; prop d "score"; prop d "relevance";
   prop d "similarity"; prop d "lookup_score"]
  ++ map sourceScore (arrayOrEmpty (prop d "sources")).

(** Follows the spec's words ("checked across several candidate field
    names on the event payload, then across each source's own score-like
    fields"): the five payload fields, then the three score fields of each
    source. *)
Definition confidenceCandidates_spec (candidate : value) : list value :=
  let d := payloadOf candidate in
  [prop d "confidence"; prop d "score"; prop d "relevance";
   prop d "similarity"; prop d "lookup_score"]
  ++ flat_map (fun s => [getOpt s "score"; getOpt s "confidence"; getOpt s "similarity"])
       (arrayOrEmpty (prop d "sources")).

(** The first finite number of a list of values. *)
Fixpoint firstFiniteNumber (vs : list value) : option float :=
  match vs with
  | [] => None
  | VNum n :: rest => if isFinite n then Some n else firstFiniteNumber rest
  | _ :: rest => firstFiniteNumber rest
  end.

(** Follows the spec's words ("first finite value wins"). *)
Definition extractConfidence_spec (candidate : value) : option float :=
  firstFiniteNumber (confidenceCandidates_spec candidate).

(** A field that is absent or holds a number. *)
Definition numberOrAbsent (v : value) : bool :=
  match v with
  | VUndefined | VNum _ => true
  | _ => false
  end.

(** The source check of the gate passes. *)
Definition enoughSources (cfg : GateConfig) (sources : value) : bool :=
  negb ((0 <? MIN_SRC cfg)%float
        && (lengthNum (List.filter truthy (arrayOrEmpty sources)) <? MIN_SRC cfg)%float).

(** Zero and the finite non-zero values of the binary64 format. *)
Definition sfFinite (x : spec_float) : bool :=
  match x with
  | S754_zero _ | S754_finite _ _ _ => true
  | S754_infinity _ | S754_nan => false
  end.

(** ** Conversation tracking *)

(** What the id expression reads from the host at a call:
    [crypto.randomUUID()] when the host has it, and the renderings of
    [Date.now()] and [Math.random()]. *)
Record IdSource : Type := {
  randomUUID : option jsstr;
  dateNow : jsstr;
  mathRandom : jsstr;
}.

(** [(globalThis.crypto?.randomUUID?.() || `${Date.now()}-${Math.random()}`).toString()] *)
Definition newId (g : IdSource) : jsstr :=
  match randomUUID g with
  | Some (c :: u) => c :: u
  | Some [] | None => dateNow g ++ js "-" ++ mathRandom g
  end.

Definition getConversationIdForUser (g : IdSource) (convoByUser : gmap jsstr jsstr)
    (userId : jsstr) : gmap jsstr jsstr * jsstr :=
  match convoByUser !! userId with
  | Some (c :: id) => (convoByUser, c :: id)
  | Some [] | None => let id := newId g in (<[userId := id]> convoByUser, id)
  end.

(** ** The DocsBot API client *)

(** What [res.text()] gives: a rejection, or the body text together with
    what [JSON.parse] returns or throws on that text. *)
Inductive Body : Type :=
| BodyFails (e : error)
| BodyText (text : jsstr) (parsed : outcome value).

(** What [fetch] gives: a rejection (a network error, or the abort the
    20000 ms timer triggers), or a response. *)
Inductive FetchResult : Type :=
| FetchFails (e : error)
| Response (ok : bool) (status : N) (body : Body).

Record AnswerResult : Type := {
  r_ok : bool;
  r_answer : jsstr;
  r_sources : list value;
  r_chosen : value;
}.

(** [{ ok: false, answer: '', sources: [] }] *)
Definition noAnswer : AnswerResult :=
  {| r_ok := false; r_answer := []; r_sources := []; r_chosen := VUndefined |}.

(** [e?.event === tag] *)
Definition tagged (tag : string) (e : value) : bool :=
  match getOpt e "event" with
  | VStr s => str_eqb s (js tag)
  | _ => false
  end.

(** [events.find(p)] *)
Definition find_ (p : value -> bool) (events : list value) : value :=
  match List.find p events with
  | Some e => e
  | None => VUndefined
  end.

(** [lookup || simple || events[0]] *)
Definition chooseEvent (events : list value) : value :=
  let lookup := find_ (tagged "lookup_answer") events in
  let simple := find_ (tagged "answer") events in
  or_ (or_ lookup simple) (hd VUndefined events).

(** [chosen?.data?.answer?.trim() || ''] *)
Definition answerOf (chosen : value) : outcome jsstr :=
  match getOpt (getOpt chosen "data") "answer" with
  | VUndefined | VNull => Ret []
  | VStr s => Ret (trim s)
  | VBool _ | VNum _ | VArr _ | VObj _ => Throw TypeError
  end.

(** [Array.isArray(chosen?.data?.sources) ? chosen.data.sources : []] *)
Definition sourcesOf (chosen : value) : list value :=
  arrayOrEmpty (getOpt (getOpt chosen "data") "sources").

(** Follows the spec's words ("event tagged lookup_answer > event tagged
    answer > the first event in the array if neither tag is present. If the
    array is empty, no chosen event"). *)
Definition chooseEvent_spec (events : list value) : option value :=
  match List.find (tagged "lookup_answer") events with
  | Some e => Some e
  | None =>
      match List.find (tagged "answer") events with
      | Some e => Some e
      | None => head events
      end
  end.

(** The failures of the ask operation: [fetch] rejects (a network error,
    or the abort of the 20000 ms timer), the status is not a success, the
    body cannot be read, or the body is text that [JSON.parse] refuses. *)
Definition hardFailure (res : FetchResult) : bool :=
  match res with
  | FetchFails _ => true
  | Response false _ _ => true
  | Response true _ (BodyFails _) => true
  | Response true _ (BodyText text (Throw _)) =>
      negb (isEmpty text || str_eqb text (js "null"))
  | Response true _ (BodyText _ (Ret _)) => false
  end.

Section Client.
Variable rt : Runtime.
Variable cfg : GateConfig.

(** The body of the [try] block. *)
Definition askDocsBot_try (res : FetchResult) : outcome AnswerResult :=
  match res with
  | FetchFails e => Throw e
  | Response false status _ => Throw (HttpError status)
  | Response true _ (BodyFails e) => Throw e
  | Response true _ (BodyText responseText parsed) =>
      if isEmpty responseText || str_eqb responseText (js "null") then Ret noAnswer
      else
        events ← parsed;
        match events with
        | VArr items =>
            let chosen := chooseEvent items in
            answer ← answerOf chosen;
            let sources := sourcesOf chosen in
            ok ← passesStrictGate rt cfg answer (VArr sources) chosen;
            Ret {| r_ok := ok; r_answer := answer; r_sources := sources;
                   r_chosen := chosen |}
        | _ => Throw TypeError
        end
  end.

(** [askDocsBot(question, userId)]: the conversation map after the call,
    the conversation id sent with the question, and the result. *)
Definition askDocsBot (g : IdSource) (res : FetchResult)
    (convoByUser : gmap jsstr jsstr) (userId : jsstr)
  : gmap jsstr jsstr * jsstr * AnswerResult :=
  let '(convo', conversationId) := getConversationIdForUser g convoByUser userId in
  (convo', conversationId, try_catch (askDocsBot_try res) (fun _ => noAnswer)).

End Client.

(** ** Formatting and the event handlers *)

Record Embed : Type := {
  description : jsstr;
  sourcesField : option jsstr;
}.

(** The calls a handler makes on the chat platform and on the API. The
    platform's own checks and the failure of a delivery are not modelled. *)
Inductive effect : Type :=
| Reply (text : jsstr)
| SendTyping
| Fetch (conversationId question : jsstr)
| Send (text : jsstr)
| DeferReply
| EditReplyContent (text : jsstr)
| EditReplyEmbed (embed : Embed).

Record Message : Type := {
  author_id : jsstr;
  author_bot : bool;
  content : jsstr;
  channelId : jsstr;
  mentionsBot : bool;
}.

(** What the host delivers when a handler asks for it. *)
Record World : Type := {
  ids : IdSource;
  fetched : FetchResult;
}.

Definition isDigit (c : N) : bool := ((48 <=? c) && (c <=? 57))%N.

Fixpoint dropDigits (s : jsstr) : jsstr :=
  match s with
  | c :: r => if isDigit c then dropDigits r else s
  | [] => []
  end.

(** A match of [<@!?(\d+)>] at the start of [s]: the rest after it. The
    code units are 60 [<], 64 [@], 33 [!] and 62 [>]. *)
Definition mentionAt (s : jsstr) : option jsstr :=
  match s with
  | a :: b :: r =>
      if ((a =? 60) && (b =? 64))%N then
        let r1 := match r with
                  | c :: r' => if (c =? 33)%N then r' else r
                  | [] => r
                  end in
        match r1 with
        | d :: _ =>
            if isDigit d then
              match dropDigits r1 with
              | c :: r2 => if (c =? 62)%N then Some r2 else None
              | [] => None
              end
            else None
        | [] => None
        end
      else None
  | _ => None
  end.

Fixpoint stripMentionsFrom (fuel : nat) (s : jsstr) : jsstr :=
  match fuel, s with
  | _, [] => []
  | O, _ => s
  | S fuel', c :: r =>
      match mentionAt s with
      | Some rest => stripMentionsFrom fuel' rest
      | None => c :: stripMentionsFrom fuel' r
      end
  end.

(** [s.replace(/<@!?(\d+)>/g, '')]; each step consumes at least one code
    unit, so the length of [s] is enough fuel. *)
Definition stripMentions (s : jsstr) : jsstr := stripMentionsFrom (length s) s.

Definition skipWords : list jsstr :=
  map js ["gm"; "gn"; "thanks"; "thank you"; "ty"; "ok"; "nice"; "lol"]%string.

Definition questionIndicators : list jsstr :=
  map js ["what"; "how"; "why"; "when"; "where"; "who"; "can"; "does,"; "is"]%string.

Definition keywords : list jsstr :=
  map js ["iaero"; "aero"; "stake"; "vault"; "token"; "reward"]%string.

Definition hasQuestion (text : jsstr) : bool :=
  includes text (js "?")
  || existsb (fun w => startsWith text (w ++ js " ")) questionIndicators.

Definition hasKeywords (text : jsstr) : bool :=
  existsb (fun k => includes text k) keywords.

(** The block run for a message of an auto-answer channel that does not
    mention the bot, on [text = msg.content.trim().toLowerCase()]: [true]
    when one of its [return]s is taken. *)
Definition ambientSkips (text : jsstr) : bool :=
  if (length text <? 5)%nat then true
  else if startsWith text (js "!") || startsWith text (js "/")
          || startsWith text (js ".") then true
  else if existsb (fun word => str_eqb text word || startsWith text (word ++ js " "))
            skipWords then true
  else negb (hasQuestion text) && negb (hasKeywords text).

(** U+1F9F9 and the text of the reset confirmation *)
Definition newTopicReply : jsstr :=
  [55358; 56825]%N ++ js " Started a new conversation. Ask away!".

(** U+1F910 and the text of the notice *)
Definition noConfidentAnswer : jsstr :=
  [55358; 56592]%N ++ js " No confident answer found for that question.".

(** U+274C and the text of the error message *)
Definition errorMsg : jsstr :=
  [10060]%N ++ js " I had trouble getting an answer. Please try again.".

(** [\n\n], U+1F4DA, [ **Sources:**\n] *)
Definition sourcesHeading : jsstr :=
  [10; 10; 55357; 56538]%N ++ js " **Sources:**" ++ [10%N].

Section Handlers.
Variable rt : Runtime.
Variable cfg : GateConfig.
Variable autoChannels : gset jsstr.

(** [ToString(v)], as a template literal and [join] apply it to a value
    that is not undefined or null. *)
Definition ToString (v : value) : outcome jsstr :=
  match v with
  | VStr s => Ret s
  | VUndefined => Ret (js "undefined")
  | VNull => Ret (js "null")
  | VBool b => Ret (if b then js "true" else js "false")
  | VNum _ | VArr _ | VObj _ => ToStringExt rt v
  end.

(** [`• [${s.title || 'Source'}](${s.url || '#'})`] *)
Definition sourceLine (s : value) : outcome jsstr :=
  title ← getDot s "title";
  t ← ToString (or_ title (VStr (js "Source")));
  url ← getDot s "url";
  u ← ToString (or_ url (VStr (js "#")));
  Ret ([8226%N] ++ js " [" ++ t ++ js "](" ++ u ++ js ")").

(** The source block of the embed: [None] when no field is added. *)
Definition sourceList (sources : list value) : outcome (option jsstr) :=
  if (0 <? length sources)%nat then
    lines ← mapM sourceLine (firstn 5 sources);
    let block := slice0 1024 (join [10%N] lines) in
    Ret (if (0 <? length block)%nat then Some block else None)
  else Ret None.

Definition buildEmbed (answer : jsstr) (sources : list value) : outcome Embed :=
  field ← sourceList sources;
  Ret {| description := slice0 4000 answer; sourcesField := field |}.

(** [s.url || s.title] *)
Definition sourceLink (s : value) : outcome value :=
  url ← getDot s "url";
  if truthy url then Ret url else getDot s "title".

(** The message sent to the channel. *)
Definition buildResponse (authorId question answer : jsstr) (sources : list value)
  : outcome jsstr :=
  let response := js "<@" ++ authorId ++ js ">" ++ [10; 10]%N ++ js "**" ++ question
                  ++ js "**" ++ [10; 10]%N ++ answer in
  response' ←
    (if (0 <? length sources)%nat then
       links ← mapM sourceLink sources;
       texts ← mapM ToString (List.filter truthy links);
       let sourceLinks := join [10%N] texts in
       Ret (if isEmpty sourceLinks then response
            else response ++ sourcesHeading ++ sourceLinks)
     else Ret response);
  Ret (if (2000 <? length response')%nat then slice0 1997 response' ++ js "..."
       else response').

(** The [InteractionCreate] handler on a chat-input command named
    [commandName] with the string option [question]. *)
Definition onInteractionCreate (w : World) (convoByUser : gmap jsstr jsstr)
    (commandName userId question : jsstr) : gmap jsstr jsstr * list effect :=
  if negb (str_eqb commandName (js "ask")) then (convoByUser, [])
  else
    let '(convo', conversationId, r) :=
      askDocsBot rt cfg (ids w) (fetched w) convoByUser userId in
    (convo',
     [DeferReply; Fetch conversationId question] ++
     if negb (r_ok r) then [EditReplyContent noConfidentAnswer]
     else match buildEmbed (r_answer r) (r_sources r) with
          | Ret embed => [EditReplyEmbed embed]
          | Throw _ => [EditReplyContent errorMsg]
          end).

(** The [MessageCreate] handler. *)
Definition onMessageCreate (w : World) (convoByUser : gmap jsstr jsstr)
    (msg : Message) : gmap jsstr jsstr * list effect :=
  if author_bot msg then (convoByUser, [])
  else if str_eqb (toLowerCase rt (trim (content msg))) (js "new topic") then
    (delete (author_id msg) convoByUser, [Reply newTopicReply])
  else
    let isAutoChannel := bool_decide (channelId msg ∈ autoChannels) in
    let isMentioned := mentionsBot msg in
    if negb isMentioned && negb isAutoChannel then (convoByUser, [])
    else
      let question :=
        if isMentioned then trim (stripMentions (content msg)) else content msg in
      if isMentioned && isEmpty question then (convoByUser, [])
      else if isAutoChannel && negb isMentioned
              && ambientSkips (toLowerCase rt (trim (content msg)))
      then (convoByUser, [])
      else
        let '(convo', conversationId, r) :=
          askDocsBot rt cfg (ids w) (fetched w) convoByUser (author_id msg) in
        (convo',
         [SendTyping; Fetch conversationId question] ++
         if negb (r_ok r) then []
         else match buildResponse (author_id msg) question (r_answer r)
                      (r_sources r) with
              | Ret response => [Send response]
              | Throw _ => []
              end).

End Handlers.

(** A field that is absent, null or a string. *)
Definition textOrAbsent (v : value) : bool :=
  match v with
  | VUndefined | VNull | VStr _ => true
  | _ => false
  end.

(** A source as the API documents it: a value that is not null whose
    [title] and [url], when present, are strings. *)
Definition plainSource (s : value) : bool :=
  negb (isNullish s) && textOrAbsent (prop s "title") && textOrAbsent (prop s "url").

(** ** Example data *)

Definition permissiveConfig : GateConfig :=
  {| STRICT := false; MIN_SRC := 1; MIN_LEN := 40; MIN_CONF := 0.35 |}.

(** An event tagged [lookup_answer] whose payload carries [answer],
    [sources] and the confidence [c]. *)
Definition lookupEvent (answer : jsstr) (sources : list value) (c : float) : value :=
  VObj [(js "event", VStr (js "lookup_answer"));
        (js "data", VObj [(js "answer", VStr answer);
                          (js "sources", VArr sources);
                          (js "confidence", VNum c)])].

Definition docSource (title url : string) : value :=
  VObj [(js "title", VStr (js title)); (js "url", VStr (js url))].

Definition threeSources : list value :=
  [docSource "Staking" "https://docs.example/staking";
   docSource "Rewards" "https://docs.example/rewards";
   docSource "Vault" "https://docs.example/vault"].

Definition hedgingAnswer : jsstr :=
  js "I'm not sure, please clarify your question about staking rewards".


Definition goodAnswer : jsstr :=
  js "The reward vault distributes weekly rewards to stakers of the token.".

(** A source whose [score] overflowed to Infinity when it was parsed (a
    JSON number such as [1e999]) and whose [confidence] is 0.2. *)
Definition overflowSource : value :=
  VObj [(js "title", VStr (js "Vault")); (js "score", VNum infinity);
        (js "confidence", VNum 0.2)].

Definition overflowEvent : value :=
  VObj [(js "event", VStr (js "lookup_answer"));
        (js "data", VObj [(js "answer", VStr goodAnswer);
                          (js "sources", VArr [overflowSource])])].

Definition exampleIds : IdSource :=
  {| randomUUID := Some (js "3b241101-e2bb-4255-8caf-4136c566a962");
     dateNow := js "1700000000000"; mathRandom := js "0.5" |}.

(** A host without [crypto.randomUUID]. *)
Definition legacyIds : IdSource :=
  {| randomUUID := None; dateNow := js "1700000000000"; mathRandom := js "0.25" |}.

Definition answeringWorld : World :=
  {| ids := exampleIds;
     fetched := Response true 200
                  (BodyText (js "[{...}]")
                     (Ret (VArr [lookupEvent goodAnswer threeSources 0.6]))) |}.

(** A message of user 7 in channel 42 that does not mention the bot. *)
Definition ambientMessage (text : string) : Message :=
  {| author_id := js "7"; author_bot := false; content := js text;
     channelId := js "42"; mentionsBot := false |}.

Definition channel42 : gset jsstr := {[ js "42" ]}.

(** The handler on an ambient message of the auto-answer channel 42. *)
Definition onAmbient (text : string) : gmap jsstr jsstr * list effect :=
  onMessageCreate asciiRuntime defaultConfig channel42 answeringWorld ∅
    (ambientMessage text).

Definition isFetch (e : effect) : bool :=
  match e with
  | Fetch _ _ => true
  | _ => false
  end.

(** A conversation map with the ids of users 7 and 8. *)
Definition twoUsers : gmap jsstr jsstr :=
  <[js "7" := js "conv-of-7"]> (<[js "8" := js "conv-of-8"]> ∅).

(** A message of user 7, in a channel that is not an auto-answer channel,
    that mentions the bot. *)
Definition newTopicMessage : Message :=
  {| author_id := js "7"; author_bot := false; content := js "  New Topic ";
     channelId := js "99"; mentionsBot := true |}.

(** A world in which the API call is aborted by the timer. *)
Definition timeoutWorld : World :=
  {| ids := exampleIds; fetched := FetchFails AbortError |}.

(** A payload whose [confidence] is null. *)
Definition nullConfidenceEvent : value :=
  VObj [(js "event", VStr (js "lookup_answer"));
        (js "data", VObj [(js "answer", VStr goodAnswer);
                          (js "sources", VArr threeSources);
                          (js "confidence", VNull)])].

(** * The rest of the program *)

(** ** Start-up: the gate's tuning values and the auto-answer channels *)

(** [Math.max(a, b)] on two numbers: NaN when either is NaN, and +0 is
    larger than -0. *)
Definition Math_max (a b : float) : float :=
  if is_nan a || is_nan b then nan
  else if (a <? b)%float then b
  else if (b <? a)%float then a
  else if get_sign a then b else a.

(** [Math.min(a, b)] on two numbers: NaN when either is NaN, and -0 is
    smaller than +0. *)
Definition Math_min (a b : float) : float :=
  if is_nan a || is_nan b then nan
  else if (a <? b)%float then a
  else if (b <? a)%float then b
  else if get_sign a then a else b.

(** The four tuning variables of [process.env], each unset or a string. *)
Record GateEnv : Type := {
  STRICT_ANSWERS : option jsstr;
  MIN_SOURCES : option jsstr;
  MIN_ANSWER_CHARS : option jsstr;
  MIN_CONFIDENCE : option jsstr;
}.

(** A variable with the default [d] of the destructuring, read as [v || d]. *)
Definition orDefault (v : option jsstr) (d : string) : jsstr :=
  match v with
  | Some (c :: s) => c :: s
  | Some [] | None => js d
  end.

Section Config.
Variable rt : Runtime.
(** [parseInt(s, 10)] and [parseFloat(s)] of the host. *)
Variable parseInt10 : jsstr -> float.
Variable parseFloat : jsstr -> float.

Definition loadGateConfig (env : GateEnv) : GateConfig :=
  {| STRICT :=
       negb (str_eqb (toLowerCase rt (default (js "true") (STRICT_ANSWERS env)))
               (js "false"));
     MIN_SRC := Math_max 0 (parseInt10 (orDefault (MIN_SOURCES env) "1"));
     MIN_LEN := Math_max 0 (parseInt10 (orDefault (MIN_ANSWER_CHARS env) "40"));
     MIN_CONF := Math_max 0 (Math_min 1 (parseFloat (orDefault (MIN_CONFIDENCE env) "0.35")))
  |}.

End Config.

(** [s.split(sep)] for a separator of one code unit. *)
Fixpoint splitOn (sep : N) (s : jsstr) : list jsstr :=
  match s with
  | [] => [[]]
  | c :: r =>
      if (c =? sep)%N then [] :: splitOn sep r
      else match splitOn sep r with
           | p :: ps => (c :: p) :: ps
           | [] => [[c]]
           end
  end.

(** [(ALLOWED_CHANNEL_IDS || '').split(',').map(s => s.trim()).filter(Boolean)] *)
Definition channelIds (ALLOWED_CHANNEL_IDS : option jsstr) : list jsstr :=
  List.filter (fun s => negb (isEmpty s))
    (map trim (splitOn 44 (default [] ALLOWED_CHANNEL_IDS))).

(** [autoChannels] *)
Definition parseAutoChannels (ALLOWED_CHANNEL_IDS : option jsstr) : gset jsstr :=
  list_to_set (channelIds ALLOWED_CHANNEL_IDS).

(** A channel id as the variable is meant to list it: not empty, without
    white space around it and without a comma. *)
Definition cleanId (s : jsstr) : bool :=
  negb (isEmpty s) && str_eqb (trim s) s && negb (existsb (N.eqb 44) s).

(** A configuration whose three minima did not parse. *)
Definition unparsedConfig : GateConfig :=
  {| STRICT := true; MIN_SRC := nan; MIN_LEN := nan; MIN_CONF := nan |}.

(** A value whose [Number] conversion needs no table of the host. *)
Definition primitiveValue (v : value) : bool :=
  match v with
  | VUndefined | VNull | VBool _ | VNum _ => true
  | VStr _ | VArr _ | VObj _ => false
  end.

(** A value that [filter(Boolean)] drops. *)
Definition falsy (v : value) : bool := negb (truthy v).

(** ** Invariants of the conversation map *)

(** No user is mapped to the empty id. *)
Definition noEmptyIds (convoByUser : gmap jsstr jsstr) : Prop :=
  forall (u id : jsstr), convoByUser !! u = Some id -> id <> [].

(** An [answer] field on which [.trim()] is not a function. *)
Definition notText (v : value) : bool :=
  match v with
  | VBool _ | VNum _ | VArr _ | VObj _ => true
  | VUndefined | VNull | VStr _ => false
  end.

(** A world in which the API answers with the given parsed body. *)
Definition worldWith (parsed : value) : World :=
  {| ids := exampleIds;
     fetched := Response true 200 (BodyText (js "...") (Ret parsed)) |}.

(** ** Reading the message handler by cases *)

(** The text the handler forwards as the question. *)
Definition questionOf (msg : Message) : jsstr :=
  if mentionsBot msg then trim (stripMentions (content msg)) else content msg.

Definition isNewTopic (rt : Runtime) (msg : Message) : bool :=
  str_eqb (toLowerCase rt (trim (content msg))) (js "new topic").

(** The handler returns before it calls anything. *)
Definition ignoredMessage (rt : Runtime) (autoChannels : gset jsstr) (msg : Message)
  : bool :=
  author_bot msg
  || negb (isNewTopic rt msg)
     && (negb (mentionsBot msg) && negb (bool_decide (channelId msg ∈ autoChannels))
         || mentionsBot msg && isEmpty (trim (stripMentions (content msg)))
         || bool_decide (channelId msg ∈ autoChannels) && negb (mentionsBot msg)
            && ambientSkips (toLowerCase rt (trim (content msg)))).

(** What follows the API call in the message handler. *)
Definition channelReply (rt : Runtime) (msg : Message) (r : AnswerResult) : list effect :=
  if negb (r_ok r) then []
  else match buildResponse rt (author_id msg) (questionOf msg) (r_answer r)
               (r_sources r) with
       | Ret response => [Send response]
       | Throw _ => []
       end.

(** What follows the API call in the command handler. *)
Definition commandReply (rt : Runtime) (r : AnswerResult) : effect :=
  if negb (r_ok r) then EditReplyContent noConfidentAnswer
  else match buildEmbed rt (r_answer r) (r_sources r) with
       | Ret embed => EditReplyEmbed embed
       | Throw _ => EditReplyContent errorMsg
       end.

(** A message of user 7 that mentions the bot, in a channel that is not an
    auto-answer channel. *)
Definition mentionMessage (text : string) : Message :=
  {| author_id := js "7"; author_bot := false; content := js text;
     channelId := js "99"; mentionsBot := true |}.

(** A source without [title] and [url]. *)
Definition bareSource : value := VObj [(js "score", VNum 0.5)].

(** A field that reads as false: absent, null, false, 0 or empty. *)
Definition blank (s : value) (k : string) : bool := falsy (prop s k).

(** U+2022 and the text of the line of a source without title and url. *)
Definition bareLine : jsstr := [8226%N] ++ js " [Source](#)".

(** ** The earlier copy of the bridge

    The file also holds the bridge as it was before the gate (lines 1-335,
    repeated after the strict-answer copy): [askDocsBot] returns
    a text for every response and rethrows its errors, and the message
    handler answers every forwarded question. It shares the conversation
    map, the event selection and the formatter's pieces with the copy above.
    A rejected [msg.channel.send] is the [sendFails] argument. *)

Module Legacy.

Definition initializingAnswer : jsstr :=
  js "The bot is still initializing. Please try again in a moment.".

Definition notFoundAnswer : jsstr := js "Sorry, I could not find an answer.".

Definition errorAnswer : jsstr :=
  js "Sorry, I encountered an error. Please try again in a moment.".

(** The body of the [try] block; its [catch] rethrows. The result is
    [{ answer, sources }]. *)
Definition askDocsBot_try (res : FetchResult) : outcome (jsstr * list value) :=
  match res with
  | FetchFails e => Throw e
  | Response false status _ => Throw (HttpError status)
  | Response true _ (BodyFails e) => Throw e
  | Response true _ (BodyText responseText parsed) =>
      if isEmpty responseText || str_eqb responseText (js "null")
      then Ret (initializingAnswer, [])
      else
        events ← parsed;
        match events with
        | VArr items =>
            let chosen := chooseEvent items in
            trimmed ← answerOf chosen;
            let answer := if isEmpty trimmed then notFoundAnswer else trimmed in
            Ret (answer, sourcesOf chosen)
        | _ => Throw TypeError
        end
  end.

Definition askDocsBot (g : IdSource) (res : FetchResult)
    (convoByUser : gmap jsstr jsstr) (userId : jsstr)
  : gmap jsstr jsstr * jsstr * outcome (jsstr * list value) :=
  let '(convo', conversationId) := getConversationIdForUser g convoByUser userId in
  (convo', conversationId, askDocsBot_try res).

Definition questionIndicators : list jsstr :=
  map js ["what"; "how"; "why"; "when"; "where"; "who"; "can"; "does"; "is"]%string.

Definition hasQuestion (text : jsstr) : bool :=
  includes text (js "?")
  || existsb (fun w => startsWith text (w ++ js " ")) questionIndicators.

Definition ambientSkips (text : jsstr) : bool :=
  if (length text <? 5)%nat then true
  else if startsWith text (js "!") || startsWith text (js "/")
          || startsWith text (js ".") then true
  else if existsb (fun word => str_eqb text word || startsWith text (word ++ js " "))
            skipWords then true
  else negb (hasQuestion text) && negb (hasKeywords text).

Section LegacyHandlers.
Variable rt : Runtime.
Variable autoChannels : gset jsstr.

(** The source field is added whenever there are sources. *)
Definition sourceList (sources : list value) : outcome (option jsstr) :=
  if (0 <? length sources)%nat then
    lines ← mapM (sourceLine rt) (firstn 5 sources);
    Ret (Some (slice0 1024 (join [10%N] lines)))
  else Ret None.

Definition buildEmbed (answer : jsstr) (sources : list value) : outcome Embed :=
  field ← sourceList sources;
  Ret {| description := slice0 4000 answer; sourcesField := field |}.

Definition onInteractionCreate (w : World) (convoByUser : gmap jsstr jsstr)
    (commandName userId question : jsstr) : gmap jsstr jsstr * list effect :=
  if negb (str_eqb commandName (js "ask")) then (convoByUser, [])
  else
    let '(convo', conversationId, result) :=
      askDocsBot (ids w) (fetched w) convoByUser userId in
    (convo',
     [DeferReply; Fetch conversationId question] ++
     match '(answer, sources) ← result; buildEmbed answer sources with
     | Ret embed => [EditReplyEmbed embed]
     | Throw _ => [EditReplyContent errorMsg]
     end).

(** [`<@${msg.author.id}> ${answer.slice(0, 1900)}`] *)
Definition fallbackMessage (authorId answer : jsstr) : jsstr :=
  js "<@" ++ authorId ++ js "> " ++ slice0 1900 answer.

(** The sends the handler attempts for an answer. *)
Definition sends (sendFails : bool) (authorId question answer : jsstr)
    (sources : list value) : list effect :=
  match buildResponse rt authorId question answer sources with
  | Ret response =>
      Send response :: (if sendFails then [Send (fallbackMessage authorId answer)] else [])
  | Throw _ => [Send (fallbackMessage authorId answer)]
  end.

Definition onMessageCreate (w : World) (sendFails : bool)
    (convoByUser : gmap jsstr jsstr) (msg : Message)
  : gmap jsstr jsstr * list effect :=
  if author_bot msg then (convoByUser, [])
  else if str_eqb (toLowerCase rt (trim (content msg))) (js "new topic") then
    (delete (author_id msg) convoByUser, [Reply newTopicReply])
  else
    let isAutoChannel := bool_decide (channelId msg ∈ autoChannels) in
    let isMentioned := mentionsBot msg in
    if negb isMentioned && negb isAutoChannel then (convoByUser, [])
    else
      let question :=
        if isMentioned then trim (stripMentions (content msg)) else content msg in
      if isMentioned && isEmpty question then (convoByUser, [])
      else if isAutoChannel && negb isMentioned
              && ambientSkips (toLowerCase rt (trim (content msg)))
      then (convoByUser, [])
      else
        let '(convo', conversationId, result) :=
          askDocsBot (ids w) (fetched w) convoByUser (author_id msg) in
        let '(answer, sources) :=
          match result with
          | Ret (answer, sources) => (answer, sources)
          | Throw _ => (errorAnswer, [])
          end in
        (convo',
         [SendTyping; Fetch conversationId question]
         ++ sends sendFails (author_id msg) question answer sources).

End LegacyHandlers.

(** The handler returns before it calls anything. *)
Definition ignoredMessage (rt : Runtime) (autoChannels : gset jsstr) (msg : Message)
  : bool :=
  author_bot msg
  || negb (isNewTopic rt msg)
     && (negb (mentionsBot msg) && negb (bool_decide (channelId msg ∈ autoChannels))
         || mentionsBot msg && isEmpty (trim (stripMentions (content msg)))
         || bool_decide (channelId msg ∈ autoChannels) && negb (mentionsBot msg)
            && ambientSkips (toLowerCase rt (trim (content msg)))).

End Legacy.

(** * Properties *)

(** ** Strings *)

Lemma isWhiteSpace_not_letter (c : N) :
  isWhiteSpace c = true -> (c < 65 \/ 122 < c)%N.
Proof.
  unfold isWhiteSpace.
  rewrite !orb_true_iff, !andb_true_iff, !N.leb_le, !N.eqb_eq. lia.
Qed.

Lemma isWhiteSpace_canon (c : N) : isWhiteSpace (canon c) = isWhiteSpace c.
Proof.
  unfold canon.
  destruct ((97 <=? c) && (c <=? 122))%N eqn:Hc; [|reflexivity].
  apply andb_true_iff in Hc as [H1 H2].
  apply N.leb_le in H1. apply N.leb_le in H2.
  destruct (isWhiteSpace (c - 32)) eqn:Ha, (isWhiteSpace c) eqn:Hb; try reflexivity.
  - apply isWhiteSpace_not_letter in Ha. lia.
  - apply isWhiteSpace_not_letter in Hb. lia.
Qed.

Lemma ciEq_solid (p c : N) :
  isWhiteSpace p = false -> ciEq p c = true -> isWhiteSpace c = false.
Proof.
  unfold ciEq. intros Hp Heq. apply N.eqb_eq in Heq.
  rewrite <- isWhiteSpace_canon, <- Heq, isWhiteSpace_canon. exact Hp.
Qed.

Lemma trimStart_split (s : jsstr) :
  exists l, s = l ++ trimStart s /\ forallb isWhiteSpace l = true.
Proof.
  induction s as [|c r [l [Hl Hw]]]; simpl.
  - exists []. split; reflexivity.
  - destruct (isWhiteSpace c) eqn:Hc.
    + exists (c :: l). simpl. rewrite Hc, Hw. split; [congruence | reflexivity].
    + exists []. split; reflexivity.
Qed.

Lemma trimEnd_split (s : jsstr) :
  exists r, s = trimEnd s ++ r /\ forallb isWhiteSpace r = true.
Proof.
  destruct (trimStart_split (rev s)) as [l [Hl Hw]].
  exists (rev l). split.
  - unfold trimEnd. rewrite <- rev_app_distr, <- Hl, rev_involutive. reflexivity.
  - rewrite forallb_forall in *. intros x Hx. apply Hw. apply in_rev. exact Hx.
Qed.

Lemma trim_split (s : jsstr) :
  exists l r, s = l ++ trim s ++ r
              /\ forallb isWhiteSpace l = true /\ forallb isWhiteSpace r = true.
Proof.
  destruct (trimStart_split s) as [l [Hl Hwl]].
  destruct (trimEnd_split (trimStart s)) as [r [Hr Hwr]].
  exists l, r. unfold trim. rewrite <- Hr, <- Hl. auto.
Qed.

(** A text that starts after white space [l] and begins with a code unit
    that is not white space starts at or after the end of [l]. *)
Lemma solid_after_spaces (l x pre y : jsstr) (c : N) :
  forallb isWhiteSpace l = true -> isWhiteSpace c = false ->
  l ++ x = pre ++ c :: y ->
  exists pre', pre = l ++ pre' /\ x = pre' ++ c :: y.
Proof.
  revert pre. induction l as [|a l IH]; intros pre Hl Hc Heq.
  - exists pre. split; [reflexivity | exact Heq].
  - simpl in Hl. apply andb_true_iff in Hl as [Ha Hl].
    destruct pre as [|b pre]; simpl in Heq.
    + injection Heq as Hac _. congruence.
    + injection Heq as Hab Heq. subst b.
      destruct (IH pre Hl Hc Heq) as [pre' [Hp Hx]].
      exists pre'. rewrite Hp. split; [reflexivity | exact Hx].
Qed.

(** A text inside [s] that starts and ends with code units that are not
    white space lies inside [trim s]. *)
Lemma solid_inside_trim (s pre m post : jsstr) (c c' : N) (m' m'' : jsstr) :
  s = pre ++ m ++ post ->
  m = c :: m' -> isWhiteSpace c = false ->
  m = m'' ++ [c'] -> isWhiteSpace c' = false ->
  exists pre' post', trim s = pre' ++ m ++ post'.
Proof.
  intros Hs Hm Hc Hm' Hc'.
  destruct (trim_split s) as [l [r [Ht [Hl Hr]]]].
  assert (H1 : l ++ (trim s ++ r) = pre ++ c :: (m' ++ post)).
  { rewrite <- Ht, Hs, Hm. reflexivity. }
  destruct (solid_after_spaces _ _ _ _ _ Hl Hc H1) as [pre' [_ H2]].
  change (c :: m' ++ post) with ((c :: m') ++ post) in H2. rewrite <- Hm in H2.
  assert (H3 : rev r ++ rev (trim s) = rev post ++ c' :: (rev m'' ++ rev pre')).
  { rewrite <- rev_app_distr, H2, Hm'.
    rewrite !rev_app_distr. simpl. rewrite <- !app_assoc. reflexivity. }
  assert (Hr' : forallb isWhiteSpace (rev r) = true).
  { rewrite forallb_forall in *. intros x Hx. apply Hr. apply in_rev. exact Hx. }
  destruct (solid_after_spaces _ _ _ _ _ Hr' Hc' H3) as [q [_ H4]].
  exists pre', (rev q).
  rewrite <- (rev_involutive (trim s)), H4, Hm'.
  rewrite !rev_app_distr. simpl. rewrite !rev_app_distr, !rev_involutive. simpl.
  rewrite <- !app_assoc. reflexivity.
Qed.

(** ** Regular expressions: the matcher computes the language *)

Lemma ciPrefix_split (w s r : jsstr) :
  ciPrefix w s = Some r -> exists m, s = m ++ r /\ ciPrefix w m = Some [].
Proof.
  revert s. induction w as [|p w IH]; intros s H; simpl in H.
  - injection H as <-. exists []. split; reflexivity.
  - destruct s as [|c s]; [discriminate|].
    destruct (ciEq p c) eqn:Hpc; [|discriminate].
    destruct (IH s H) as [m [Hs Hm]].
    exists (c :: m). simpl. rewrite Hpc, Hs. split; [reflexivity | exact Hm].
Qed.

Lemma ciPrefix_app (w m r : jsstr) :
  ciPrefix w m = Some [] -> ciPrefix w (m ++ r) = Some r.
Proof.
  revert m. induction w as [|p w IH]; intros m H; simpl in H.
  - injection H as ->. reflexivity.
  - destruct m as [|c m]; [discriminate|]. simpl.
    destruct (ciEq p c); [apply IH; exact H | discriminate].
Qed.

Lemma ciPrefix_last (w0 : jsstr) (p : N) (m : jsstr) :
  ciPrefix (w0 ++ [p]) m = Some [] ->
  exists m0 c, m = m0 ++ [c] /\ ciEq p c = true.
Proof.
  revert m. induction w0 as [|a w0 IH]; intros m H; simpl in H.
  - destruct m as [|c m]; [discriminate|].
    destruct (ciEq p c) eqn:Hpc; [|discriminate].
    injection H as ->. exists [], c. split; [reflexivity | exact Hpc].
  - destruct m as [|c m]; [discriminate|].
    destruct (ciEq a c); [|discriminate].
    destruct (IH m H) as [m0 [c0 [Hm Hc]]].
    exists (c :: m0), c0. rewrite Hm. split; [reflexivity | exact Hc].
Qed.

Lemma spaces1_sound (s r : jsstr) :
  In r (spaces1 s) ->
  exists m, s = m ++ r /\ m <> [] /\ forallb isWhiteSpace m = true.
Proof.
  revert r. induction s as [|c s IH]; intros r H; simpl in H; [contradiction|].
  destruct (isWhiteSpace c) eqn:Hc; [|contradiction].
  destruct H as [<- | H].
  - exists [c]. simpl. rewrite Hc. repeat split. discriminate.
  - destruct (IH r H) as [m [Hs [_ Hw]]].
    exists (c :: m). simpl. rewrite Hc, Hw, Hs. repeat split. discriminate.
Qed.

Lemma spaces1_complete (m r : jsstr) :
  m <> [] -> forallb isWhiteSpace m = true -> In r (spaces1 (m ++ r)).
Proof.
  induction m as [|c m IH]; intros Hne Hw; [contradiction|].
  simpl in *. apply andb_true_iff in Hw as [Hc Hw]. rewrite Hc.
  destruct m as [|c' m].
  - left. reflexivity.
  - right. apply IH; [discriminate | exact Hw].
Qed.

Lemma run_sound (re : regex) (s r : jsstr) :
  In r (run re s) -> exists m, s = m ++ r /\ matches re m.
Proof.
  revert s r. induction re as [w|cs| |a IHa b IHb|a IHa b IHb]; intros s r H; simpl in *.
  - destruct (ciPrefix w s) as [r'|] eqn:Hp; [|contradiction].
    destruct H as [<- | []]. apply ciPrefix_split. exact Hp.
  - destruct s as [|c s]; [contradiction|].
    destruct (existsb (fun p => ciEq p c) cs) eqn:Hc; [|contradiction].
    destruct H as [<- | []]. exists [c]. split; [reflexivity|]. exists c. auto.
  - apply spaces1_sound. exact H.
  - apply in_flat_map in H as [r1 [H1 H2]].
    destruct (IHa _ _ H1) as [m1 [Hs1 Hm1]].
    destruct (IHb _ _ H2) as [m2 [Hs2 Hm2]].
    exists (m1 ++ m2). split.
    + rewrite Hs1, Hs2, app_assoc. reflexivity.
    + exists m1, m2. auto.
  - apply in_app_iff in H as [H | H].
    + destruct (IHa _ _ H) as [m [Hs Hm]]. exists m. auto.
    + destruct (IHb _ _ H) as [m [Hs Hm]]. exists m. auto.
Qed.

Lemma run_complete (re : regex) (m r : jsstr) :
  matches re m -> In r (run re (m ++ r)).
Proof.
  revert m r. induction re as [w|cs| |a IHa b IHb|a IHa b IHb]; intros m r H; simpl in *.
  - rewrite (ciPrefix_app _ _ r H). left. reflexivity.
  - destruct H as [c [-> Hc]]. simpl. rewrite Hc. left. reflexivity.
  - destruct H as [Hne Hw]. apply spaces1_complete; assumption.
  - destruct H as [m1 [m2 [-> [H1 H2]]]].
    apply in_flat_map. exists (m2 ++ r). split.
    + rewrite <- app_assoc. apply IHa. exact H1.
    + apply IHb. exact H2.
  - apply in_app_iff. destruct H as [H | H]; [left; apply IHa | right; apply IHb]; exact H.
Qed.

Lemma matchesAt_true (re : regex) (s : jsstr) :
  matchesAt re s = true <-> exists r, In r (run re s).
Proof.
  unfold matchesAt. destruct (run re s) as [|r l]; split.
  - discriminate.
  - intros [r []].
  - intros _. exists r. left. reflexivity.
  - reflexivity.
Qed.

Lemma test_sound (re : regex) (s : jsstr) :
  test re s = true -> exists pre m post, s = pre ++ m ++ post /\ matches re m.
Proof.
  induction s as [|c s IH]; simpl; intros H.
  - rewrite orb_false_r in H. apply matchesAt_true in H as [r Hr].
    destruct (run_sound _ _ _ Hr) as [m [Hs Hm]]. exists [], m, r. auto.
  - apply orb_true_iff in H as [H | H].
    + apply matchesAt_true in H as [r Hr].
      destruct (run_sound _ _ _ Hr) as [m [Hs Hm]]. exists [], m, r. auto.
    + destruct (IH H) as [pre [m [post [Hs Hm]]]].
      exists (c :: pre), m, post. rewrite Hs. auto.
Qed.

Lemma test_complete (re : regex) (pre m post : jsstr) :
  matches re m -> test re (pre ++ m ++ post) = true.
Proof.
  intros Hm. induction pre as [|c pre IH]; simpl.
  - assert (H : matchesAt re (m ++ post) = true).
    { apply matchesAt_true. exists post. apply run_complete. exact Hm. }
    destruct (m ++ post); simpl; rewrite H; reflexivity.
  - rewrite IH. apply orb_true_r.
Qed.

Lemma startsSolid_spec (re : regex) (m : jsstr) :
  startsSolid re = true -> matches re m ->
  exists c m', m = c :: m' /\ isWhiteSpace c = false.
Proof.
  revert m. induction re as [w|cs| |a IHa b IHb|a IHa b IHb]; intros m Hs Hm; simpl in *.
  - destruct w as [|p w]; [discriminate|]. simpl in Hm.
    destruct m as [|c m]; [discriminate|].
    destruct (ciEq p c) eqn:Hpc; [|discriminate].
    exists c, m. split; [reflexivity|].
    apply (ciEq_solid p); [apply negb_true_iff; exact Hs | exact Hpc].
  - destruct Hm as [c [-> Hc]]. exists c, []. split; [reflexivity|].
    apply existsb_exists in Hc as [p [Hin Hpc]].
    rewrite forallb_forall in Hs. specialize (Hs p Hin).
    apply (ciEq_solid p); [apply negb_true_iff; exact Hs | exact Hpc].
  - discriminate.
  - destruct Hm as [m1 [m2 [-> [H1 _]]]].
    destruct (IHa _ Hs H1) as [c [m' [-> Hc]]]. exists c, (m' ++ m2). auto.
  - apply andb_true_iff in Hs as [Ha Hb].
    destruct Hm as [H | H]; [apply IHa | apply IHb]; assumption.
Qed.

Lemma endsSolid_spec (re : regex) (m : jsstr) :
  endsSolid re = true -> matches re m ->
  exists m' c, m = m' ++ [c] /\ isWhiteSpace c = false.
Proof.
  revert m. induction re as [w|cs| |a IHa b IHb|a IHa b IHb]; intros m Hs Hm; simpl in *.
  - destruct (rev w) as [|p w0] eqn:Hw; [discriminate|].
    assert (Hw' : w = rev w0 ++ [p]).
    { rewrite <- (rev_involutive w), Hw. reflexivity. }
    rewrite Hw' in Hm. destruct (ciPrefix_last _ _ _ Hm) as [m0 [c [-> Hpc]]].
    exists m0, c. split; [reflexivity|].
    apply (ciEq_solid p); [apply negb_true_iff; exact Hs | exact Hpc].
  - destruct Hm as [c [-> Hc]]. exists [], c. split; [reflexivity|].
    apply existsb_exists in Hc as [p [Hin Hpc]].
    rewrite forallb_forall in Hs. specialize (Hs p Hin).
    apply (ciEq_solid p); [apply negb_true_iff; exact Hs | exact Hpc].
  - discriminate.
  - destruct Hm as [m1 [m2 [-> [_ H2]]]].
    destruct (IHb _ Hs H2) as [m' [c [-> Hc]]]. exists (m1 ++ m'), c.
    rewrite app_assoc. auto.
  - apply andb_true_iff in Hs as [Ha Hb].
    destruct Hm as [H | H]; [apply IHa | apply IHb]; assumption.
Qed.

(** A pattern that starts and ends with code units that are not white
    space matches a text exactly when it matches the trimmed text. *)
Lemma test_trim (re : regex) (s : jsstr) :
  startsSolid re = true -> endsSolid re = true ->
  test re s = true -> test re (trim s) = true.
Proof.
  intros H1 H2 Ht.
  destruct (test_sound _ _ Ht) as [pre [m [post [Hs Hm]]]].
  destruct (startsSolid_spec _ _ H1 Hm) as [c [m' [Hc Hcw]]].
  destruct (endsSolid_spec _ _ H2 Hm) as [m'' [c' [Hc' Hcw']]].
  destruct (solid_inside_trim _ _ _ _ _ _ _ _ Hs Hc Hcw Hc' Hcw') as [pre' [post' ->]].
  apply test_complete. exact Hm.
Qed.

Lemma FALLBACK_PATTERNS_solid :
  forallb (fun re => startsSolid re && endsSolid re) FALLBACK_PATTERNS = true.
Proof. vm_compute. reflexivity. Qed.

(** ** The strict gate *)

Lemma looksLikeFallback_short (cfg : GateConfig) (text : jsstr) :
  (lengthNum (trim text) <? MIN_LEN cfg)%float = true ->
  looksLikeFallback cfg text = true.
Proof.
  intros H. unfold looksLikeFallback. destruct text as [|c text]; [reflexivity|].
  cbv zeta. rewrite H. destruct (length (trim (c :: text)) =? 0)%nat; reflexivity.
Qed.

Lemma looksLikeFallback_pattern (cfg : GateConfig) (text : jsstr) :
  existsb (fun re => test re text) FALLBACK_PATTERNS = true ->
  looksLikeFallback cfg text = true.
Proof.
  intros H. unfold looksLikeFallback. destruct text as [|c text]; [reflexivity|].
  cbv zeta.
  destruct (length (trim (c :: text)) =? 0)%nat; [reflexivity|].
  destruct (lengthNum (trim (c :: text)) <? MIN_LEN cfg)%float; [reflexivity|].
  apply existsb_exists in H as [re [Hin Hre]].
  apply existsb_exists. exists re. split; [exact Hin|].
  pose proof FALLBACK_PATTERNS_solid as Hsolid.
  rewrite forallb_forall in Hsolid. specialize (Hsolid re Hin).
  apply andb_true_iff in Hsolid as [H1 H2].
  apply test_trim; assumption.
Qed.

(** C1. In strict mode [passesStrictGate] returns false for every answer
    whose trimmed length is below [MIN_LEN], and for every answer whose
    text matches one of the fallback patterns, whatever the sources and
    whatever the raw event (so whatever confidence it carries). *)
Theorem C1_gate_rejects_short_or_fallback
    (rt : Runtime) (cfg : GateConfig) (answer : jsstr) (sources chosen : value) :
  STRICT cfg = true ->
  (lengthNum (trim answer) <? MIN_LEN cfg)%float = true
  \/ existsb (fun re => test re answer) FALLBACK_PATTERNS = true ->
  passesStrictGate rt cfg answer sources chosen = Ret false.
Proof.
  intros Hs H. unfold passesStrictGate. rewrite Hs. simpl.
  destruct H as [H | H].
  - rewrite (looksLikeFallback_short _ _ H). reflexivity.
  - rewrite (looksLikeFallback_pattern _ _ H). reflexivity.
Qed.

Lemma C1_witness :
  passesStrictGate asciiRuntime defaultConfig (js "Yes.") (VArr threeSources)
    (lookupEvent (js "Yes.") threeSources 0.9) = Ret false
  /\ passesStrictGate asciiRuntime defaultConfig hedgingAnswer (VArr threeSources)
       (lookupEvent hedgingAnswer threeSources 0.9) = Ret false.
Proof.
  split.
  - apply C1_gate_rejects_short_or_fallback; [reflexivity | left; reflexivity].
  - apply C1_gate_rejects_short_or_fallback; [reflexivity | right; reflexivity].
Defined.

(** C3. With strict mode off the gate accepts every answer (so every
    non-empty one), whatever its length and wording, the sources and the
    confidence of the raw event. *)
Theorem C3_permissive_gate_accepts
    (rt : Runtime) (cfg : GateConfig) (answer : jsstr) (sources chosen : value) :
  STRICT cfg = false ->
  passesStrictGate rt cfg answer sources chosen = Ret true.
Proof. intros Hs. unfold passesStrictGate. rewrite Hs. reflexivity. Qed.

Lemma C3_witness :
  passesStrictGate asciiRuntime permissiveConfig hedgingAnswer (VArr [])
    (lookupEvent hedgingAnswer [] 0.01) = Ret true.
Proof. apply C3_permissive_gate_accepts. reflexivity. Defined.

(** ** Numbers: finiteness through the binary64 specification *)

Lemma SFeqb_finite_refl (s : bool) (m : positive) (e : Z) :
  SFeqb (S754_finite s m e) (S754_finite s m e) = true.
Proof.
  unfold SFeqb, SFcompare. rewrite Z.compare_refl, Pos.compare_cont_refl.
  destruct s; reflexivity.
Qed.

Lemma isFinite_spec (x : float) : isFinite x = sfFinite (Prim2SF x).
Proof.
  unfold isFinite, is_nan, is_infinity.
  rewrite !FloatAxioms.eqb_spec, FloatAxioms.abs_spec.
  change (Prim2SF infinity) with (S754_infinity false).
  destruct (Prim2SF x) as [s|s| |s m e]; simpl; try reflexivity.
  - destruct s; reflexivity.
  - rewrite SFeqb_finite_refl. reflexivity.
Qed.

(** Rounding keeps the sign it is given. *)
Lemma binary_round_aux_sign (s : bool) (m e : Z) (l : location) :
  match binary_round_aux prec emax s m e l with
  | S754_zero s' | S754_infinity s' | S754_finite s' _ _ => s' = s
  | S754_nan => True
  end.
Proof.
  unfold binary_round_aux.
  destruct (shr_fexp prec emax m e l) as [mrs' e'].
  destruct (shr_fexp _ _ _ _ _) as [mrs'' e''].
  destruct (shr_m mrs''); try exact I; try reflexivity.
  destruct (Z.leb _ _); reflexivity.
Qed.

(** A finite value above 1, divided by 100, is finite as soon as it
    compares below anything. *)
Lemma div100_finite (x c : float) :
  isFinite x = true -> (1 <? x)%float = true -> (x / 100 <? c)%float = true ->
  isFinite (x / 100) = true.
Proof.
  rewrite !isFinite_spec, !FloatAxioms.ltb_spec, FloatAxioms.div_spec.
  change (Prim2SF 1) with (S754_finite false 4503599627370496 (-52)).
  change (Prim2SF 100) with (S754_finite false 7036874417766400 (-46)).
  destruct (Prim2SF x) as [s|s| |s m e]; simpl; try discriminate.
  intros _ Hpos. destruct s; [discriminate|].
  unfold SF64div, SFdiv.
  destruct (SFdiv_core_binary _ _ _ _ _ _) as [[mz ez] lz].
  pose proof (binary_round_aux_sign (xorb false false) mz ez lz) as Hs.
  destruct (binary_round_aux _ _ _ _ _ _) as [s'|s'| |s' m' e']; simpl; try reflexivity.
  - simpl in Hs. subst s'. unfold SFltb. simpl.
    destruct (Prim2SF c) as [| [|] | |]; discriminate.
  - discriminate.
Qed.

Lemma normalizeConfidence_finite (x : float) :
  isFinite x = true ->
  normalizeConfidence x = if (1 <? x)%float then (x / 100)%float else x.
Proof. intros H. unfold normalizeConfidence. rewrite H. reflexivity. Qed.

Lemma normalizeConfidence_below_finite (x c : float) :
  isFinite x = true -> (normalizeConfidence x <? c)%float = true ->
  isFinite (normalizeConfidence x) = true.
Proof.
  intros Hx. rewrite (normalizeConfidence_finite _ Hx).
  destruct (1 <? x)%float eqn:H1; [|intros _; exact Hx].
  apply div100_finite; assumption.
Qed.

Lemma normalizeConfidence_finite_inv (x : float) :
  isFinite (normalizeConfidence x) = true -> isFinite x = true.
Proof.
  unfold normalizeConfidence. destruct (isFinite x); [reflexivity|]. simpl.
  intros H. vm_compute in H. discriminate.
Qed.

(** ** The confidence scan *)

Lemma firstFinite_app (rt : Runtime) (vs ws : list value) :
  firstFinite rt (vs ++ ws) =
  (r ← firstFinite rt vs;
   match r with
   | Some n => Ret (Some n)
   | None => firstFinite rt ws
   end).
Proof.
  induction vs as [|v vs IH]; simpl; [reflexivity|].
  destruct (Number rt v) as [n|e]; simpl; [|reflexivity].
  destruct (isFinite n); [reflexivity | exact IH].
Qed.

(** The two loops of [extractConfidence] are one scan of
    [confidenceCandidates]. *)
Lemma extractConfidence_scan (rt : Runtime) (candidate : value) :
  extractConfidence rt candidate =
  (r ← firstFinite rt (confidenceCandidates candidate); Ret (default nan r)).
Proof.
  unfold extractConfidence, confidenceCandidates. cbv zeta.
  fold (payloadOf candidate).
  set (five := [_; _; _; _; _]).
  rewrite firstFinite_app.
  destruct (firstFinite rt five) as [[n|]|e]; simpl; try reflexivity.
  destruct (firstFinite rt _) as [[n|]|e]; reflexivity.
Qed.

Lemma firstFinite_plain (rt : Runtime) (vs : list value) :
  forallb numberOrAbsent vs = true ->
  firstFinite rt vs = Ret (firstFiniteNumber vs).
Proof.
  induction vs as [|v vs IH]; simpl; [reflexivity|].
  intros H. apply andb_true_iff in H as [Hv Hvs].
  destruct v; try discriminate; simpl.
  - apply IH. exact Hvs.
  - destruct (isFinite n); [reflexivity | apply IH; exact Hvs].
Qed.

Lemma firstFiniteNumber_finite (vs : list value) (x : float) :
  firstFiniteNumber vs = Some x -> isFinite x = true.
Proof.
  induction vs as [|v vs IH]; simpl; [discriminate|].
  destruct v; try exact IH.
  destruct (isFinite n) eqn:Hn; [|exact IH].
  intros H. injection H as <-. exact Hn.
Qed.

Lemma sourceScore_plain (s : value) :
  forallb numberOrAbsent [getOpt s "score"; getOpt s "confidence"; getOpt s "similarity"]
  = true ->
  numberOrAbsent (sourceScore s) = true.
Proof.
  unfold sourceScore. simpl.
  destruct (getOpt s "score"), (getOpt s "confidence"), (getOpt s "similarity");
    simpl; intros H; try discriminate; reflexivity.
Qed.

Lemma confidenceCandidates_plain (candidate : value) :
  forallb numberOrAbsent (confidenceCandidates_spec candidate) = true ->
  forallb numberOrAbsent (confidenceCandidates candidate) = true.
Proof.
  unfold confidenceCandidates_spec, confidenceCandidates. cbv zeta.
  rewrite !forallb_app. intros H. apply andb_true_iff in H as [H5 Hs].
  rewrite H5. simpl.
  induction (arrayOrEmpty (prop (payloadOf candidate) "sources")) as [|s l IH];
    [reflexivity|].
  cbn [flat_map] in Hs. rewrite forallb_app in Hs.
  apply andb_true_iff in Hs as [H3 Hl].
  cbn [map forallb]. rewrite (sourceScore_plain _ H3), (IH Hl). reflexivity.
Qed.

(** The gate after its text and source checks have passed. *)
Lemma passesStrictGate_confidence (rt : Runtime) (cfg : GateConfig)
    (answer : jsstr) (sources chosen : value) (raw : float) :
  STRICT cfg = true -> looksLikeFallback cfg answer = false ->
  enoughSources cfg sources = true ->
  extractConfidence rt chosen = Ret raw ->
  passesStrictGate rt cfg answer sources chosen =
  Ret (negb (isFinite (normalizeConfidence raw)
             && (normalizeConfidence raw <? MIN_CONF cfg)%float)).
Proof.
  intros Hs Hf Hsrc Hraw. unfold passesStrictGate.
  rewrite Hs, Hf. simpl.
  unfold enoughSources in Hsrc. apply negb_true_iff in Hsrc. rewrite Hsrc.
  rewrite Hraw. simpl.
  destruct (isFinite (normalizeConfidence raw)
            && (normalizeConfidence raw <? MIN_CONF cfg)%float); reflexivity.
Qed.

(** C2, as stated, fails. The source [{score: Infinity, confidence: 0.2}]
    has a finite score-like value, 0.2, below the minimum 0.35; the code
    reads only [score] (the first of the three that is not null or
    undefined), finds no finite value and accepts the answer. *)
Lemma C2_counterexample :
  STRICT defaultConfig = true
  /\ extractConfidence_spec overflowEvent = Some 0.2%float
  /\ (normalizeConfidence 0.2 <? MIN_CONF defaultConfig)%float = true
  /\ passesStrictGate asciiRuntime defaultConfig goodAnswer (VArr [overflowSource])
       overflowEvent = Ret true.
Proof.
  split; [reflexivity|]. split; [reflexivity|]. split; reflexivity.
Qed.

(** C2, amended. For a raw event whose confidence-like fields are each
    absent or a number: the value extracted is the first finite one among
    the payload's [confidence], [score], [relevance], [similarity] and
    [lookup_score], in that order, and then, for each source in order, the
    first present one of its [score], [confidence] and [similarity] (one
    value per source), NaN when there is none; a finite value above 1 is
    divided by 100 and any other finite value is kept; in strict mode, for
    an answer that passed the text and source checks, the gate rejects
    exactly when such a finite value exists and its normalized form is below
    [MIN_CONF], and accepts when there is no finite value. 85 normalizes to
    0.85, 1 to 1, and 0.2 is below 0.35. *)
Theorem C2_confidence_check
    (rt : Runtime) (cfg : GateConfig) (answer : jsstr) (sources chosen : value) :
  forallb numberOrAbsent (confidenceCandidates_spec chosen) = true ->
  let found := firstFiniteNumber (confidenceCandidates chosen) in
  extractConfidence rt chosen = Ret (default nan found)
  /\ (forall x, found = Some x ->
        isFinite x = true
        /\ normalizeConfidence x = if (1 <? x)%float then (x / 100)%float else x)
  /\ (STRICT cfg = true -> looksLikeFallback cfg answer = false ->
      enoughSources cfg sources = true ->
      passesStrictGate rt cfg answer sources chosen =
      Ret (match found with
           | Some x => negb (normalizeConfidence x <? MIN_CONF cfg)%float
           | None => true
           end))
  /\ normalizeConfidence 85 = 0.85%float
  /\ normalizeConfidence 1 = 1%float
  /\ (normalizeConfidence 0.2 <? 0.35)%float = true.
Proof.
  intros Hplain found.
  assert (Hraw : extractConfidence rt chosen = Ret (default nan found)).
  { rewrite extractConfidence_scan.
    rewrite (firstFinite_plain rt _ (confidenceCandidates_plain _ Hplain)).
    reflexivity. }
  split; [exact Hraw|]. split; [|split; [|repeat split; reflexivity]].
  - intros x Hx. pose proof (firstFiniteNumber_finite _ _ Hx) as Hfin.
    split; [exact Hfin | apply normalizeConfidence_finite; exact Hfin].
  - intros Hs Hf Hsrc.
    rewrite (passesStrictGate_confidence rt cfg answer sources chosen _ Hs Hf Hsrc Hraw).
    destruct found as [x|] eqn:Hfound; simpl.
    + pose proof (firstFiniteNumber_finite _ _ Hfound) as Hfin.
      destruct (normalizeConfidence x <? MIN_CONF cfg)%float eqn:Hlt.
      * rewrite (normalizeConfidence_below_finite _ _ Hfin Hlt). reflexivity.
      * rewrite andb_false_r. reflexivity.
    + reflexivity.
Qed.

Lemma C2_witness :
  passesStrictGate asciiRuntime defaultConfig goodAnswer (VArr threeSources)
    (lookupEvent goodAnswer threeSources 0.2) = Ret false
  /\ passesStrictGate asciiRuntime defaultConfig goodAnswer (VArr threeSources)
       (lookupEvent goodAnswer threeSources 85) = Ret true
  /\ passesStrictGate asciiRuntime defaultConfig goodAnswer (VArr threeSources)
       (VObj [(js "data", VObj [(js "answer", VStr goodAnswer)])]) = Ret true.
Proof.
  split; [|split].
  - apply (C2_confidence_check asciiRuntime defaultConfig goodAnswer (VArr threeSources)
             (lookupEvent goodAnswer threeSources 0.2) eq_refl); reflexivity.
  - apply (C2_confidence_check asciiRuntime defaultConfig goodAnswer (VArr threeSources)
             (lookupEvent goodAnswer threeSources 85) eq_refl); reflexivity.
  - apply (C2_confidence_check asciiRuntime defaultConfig goodAnswer (VArr threeSources)
             (VObj [(js "data", VObj [(js "answer", VStr goodAnswer)])]) eq_refl);
      reflexivity.
Defined.

(** [Number(null)] is 0: a payload whose [confidence] is null is rejected as
    a confidence of 0. The amended claim is about fields that are absent or
    numbers and leaves this case out. *)
Lemma null_confidence_reads_as_zero :
  extractConfidence asciiRuntime nullConfidenceEvent = Ret 0%float
  /\ passesStrictGate asciiRuntime defaultConfig goodAnswer (VArr threeSources)
       nullConfidenceEvent = Ret false.
Proof. split; reflexivity. Qed.

(** ** The ambient-message classifier *)

(** What the block computes once its three rejection filters are passed. *)
Lemma ambientSkips_filtered (text : jsstr) :
  (length text <? 5)%nat = false ->
  startsWith text (js "!") || startsWith text (js "/") || startsWith text (js ".") = false ->
  existsb (fun word => str_eqb text word || startsWith text (word ++ js " ")) skipWords
  = false ->
  ambientSkips text =
  negb (includes text (js "?")
        || existsb (fun w => startsWith text (w ++ js " ")) questionIndicators
        || existsb (fun k => includes text k) keywords).
Proof.
  intros H1 H2 H3. unfold ambientSkips. rewrite H1, H2, H3.
  unfold hasQuestion, hasKeywords. rewrite !negb_orb. reflexivity.
Qed.

(** The examples of the claim that the code satisfies. *)
Lemma ambient_examples :
  snd (onAmbient "gm") = []
  /\ snd (onAmbient "ok thanks") = []
  /\ snd (onAmbient "hi") = []
  /\ existsb isFetch (snd (onAmbient "what is the staking APY?")) = true
  /\ existsb isFetch (snd (onAmbient "iaero vault rules")) = true.
Proof. repeat split; vm_compute; reflexivity. Qed.

(** C4: the code at the failing input. The ambient message
    "does it work well" passes the three rejection filters and its
    lower-cased text starts with "does" and a space, yet the handler ignores
    it: the list of question words holds "does," (with a comma), so only a
    text starting with "does, " counts. *)
Theorem C4_does_question_is_ignored :
  (length (toLowerCase asciiRuntime (trim (js "does it work well"))) <? 5)%nat = false
  /\ startsWith (toLowerCase asciiRuntime (trim (js "does it work well"))) (js "does ")
     = true
  /\ ambientSkips (toLowerCase asciiRuntime (trim (js "does it work well"))) = true
  /\ onAmbient "does it work well" = (∅, [])
  /\ existsb isFetch (snd (onAmbient "does, it work well")) = true.
Proof. repeat split; vm_compute; reflexivity. Qed.

(** ** The API client *)

Lemma askDocsBot_result (rt : Runtime) (cfg : GateConfig) (g : IdSource)
    (res : FetchResult) (convoByUser : gmap jsstr jsstr) (userId : jsstr) :
  snd (askDocsBot rt cfg g res convoByUser userId) =
  try_catch (askDocsBot_try rt cfg res) (fun _ => noAnswer).
Proof.
  unfold askDocsBot.
  destruct (getConversationIdForUser g convoByUser userId) as [convo' id].
  reflexivity.
Qed.

Lemma askDocsBot_try_hardFailure (rt : Runtime) (cfg : GateConfig) (res : FetchResult) :
  hardFailure res = true -> exists e, askDocsBot_try rt cfg res = Throw e.
Proof.
  destruct res as [e | [|] status [e | text [v | e]]]; simpl; intros H;
    try discriminate; eauto.
  apply negb_true_iff in H. rewrite H. simpl. eauto.
Qed.

Lemma askDocsBot_try_null_body (rt : Runtime) (cfg : GateConfig) (status : N)
    (text : jsstr) (parsed : outcome value) :
  isEmpty text || str_eqb text (js "null") = true ->
  askDocsBot_try rt cfg (Response true status (BodyText text parsed)) = Ret noAnswer.
Proof. intros H. simpl. rewrite H. reflexivity. Qed.

(** C5. On every failure of the ask operation (a network error, the
    abort of the 20-second timer, a status that is not a success, a body
    that cannot be read or parsed) the [try] block throws, and [askDocsBot]
    returns the no-answer result: [ok] false, empty answer, no sources. Any
    other exception of the [try] block ends the same way. *)
Theorem C5_failures_become_no_answer
    (rt : Runtime) (cfg : GateConfig) (g : IdSource) (res : FetchResult)
    (convoByUser : gmap jsstr jsstr) (userId : jsstr) :
  hardFailure res = true ->
  (exists e, askDocsBot_try rt cfg res = Throw e)
  /\ snd (askDocsBot rt cfg g res convoByUser userId) = noAnswer
  /\ r_ok noAnswer = false /\ r_answer noAnswer = [] /\ r_sources noAnswer = []
  /\ (forall (res' : FetchResult) (e : error),
        askDocsBot_try rt cfg res' = Throw e ->
        snd (askDocsBot rt cfg g res' convoByUser userId) = noAnswer).
Proof.
  intros H. destruct (askDocsBot_try_hardFailure rt cfg res H) as [e He].
  split; [eauto|]. split.
  - rewrite askDocsBot_result, He. reflexivity.
  - repeat split. intros res' e' He'. rewrite askDocsBot_result, He'. reflexivity.
Qed.

Lemma C5_witness :
  snd (askDocsBot asciiRuntime defaultConfig exampleIds (FetchFails AbortError) ∅ (js "7"))
  = noAnswer
  /\ snd (askDocsBot asciiRuntime defaultConfig exampleIds
            (Response false 503 (BodyText (js "Service Unavailable") (Throw SyntaxError)))
            ∅ (js "7")) = noAnswer
  /\ snd (askDocsBot asciiRuntime defaultConfig exampleIds
            (Response true 200 (BodyText (js "<html>") (Throw SyntaxError)))
            ∅ (js "7")) = noAnswer.
Proof.
  split; [|split].
  - apply (C5_failures_become_no_answer asciiRuntime defaultConfig exampleIds
             (FetchFails AbortError) ∅ (js "7")). reflexivity.
  - apply (C5_failures_become_no_answer asciiRuntime defaultConfig exampleIds
             (Response false 503 (BodyText (js "Service Unavailable") (Throw SyntaxError)))
             ∅ (js "7")). reflexivity.
  - apply (C5_failures_become_no_answer asciiRuntime defaultConfig exampleIds
             (Response true 200 (BodyText (js "<html>") (Throw SyntaxError)))
             ∅ (js "7")). reflexivity.
Defined.

(** C6, as stated, fails: the result for a successful response whose body
    is the text "null" is the result for a network error, so the caller
    gets no distinct signal. *)
Lemma C6_counterexample :
  snd (askDocsBot asciiRuntime defaultConfig exampleIds
         (Response true 200 (BodyText (js "null") (Ret VNull))) ∅ (js "7"))
  = snd (askDocsBot asciiRuntime defaultConfig exampleIds
           (FetchFails NetworkError) ∅ (js "7")).
Proof. reflexivity. Qed.

(** C6, amended. When the call succeeds and the body is empty or the text
    "null", the [try] block returns the no-answer result by a normal
    return, without throwing; the value [askDocsBot] returns is the one it
    returns on every hard failure. *)
Theorem C6_null_body_is_no_answer
    (rt : Runtime) (cfg : GateConfig) (g : IdSource)
    (convoByUser : gmap jsstr jsstr) (userId : jsstr)
    (status : N) (text : jsstr) (parsed : outcome value) :
  isEmpty text || str_eqb text (js "null") = true ->
  askDocsBot_try rt cfg (Response true status (BodyText text parsed)) = Ret noAnswer
  /\ snd (askDocsBot rt cfg g (Response true status (BodyText text parsed))
            convoByUser userId) = noAnswer
  /\ (forall res : FetchResult, hardFailure res = true ->
        snd (askDocsBot rt cfg g res convoByUser userId)
        = snd (askDocsBot rt cfg g (Response true status (BodyText text parsed))
                 convoByUser userId)).
Proof.
  intros H. pose proof (askDocsBot_try_null_body rt cfg status text parsed H) as Hnull.
  split; [exact Hnull|]. split.
  - rewrite askDocsBot_result, Hnull. reflexivity.
  - intros res Hres. destruct (askDocsBot_try_hardFailure rt cfg res Hres) as [e He].
    rewrite !askDocsBot_result, He, Hnull. reflexivity.
Qed.

Lemma C6_witness :
  askDocsBot_try asciiRuntime defaultConfig
    (Response true 200 (BodyText (js "null") (Ret VNull))) = Ret noAnswer
  /\ askDocsBot_try asciiRuntime defaultConfig
       (Response true 200 (BodyText [] (Throw SyntaxError))) = Ret noAnswer.
Proof.
  split.
  - apply (C6_null_body_is_no_answer asciiRuntime defaultConfig exampleIds ∅ (js "7")
             200%N (js "null") (Ret VNull)). reflexivity.
  - apply (C6_null_body_is_no_answer asciiRuntime defaultConfig exampleIds ∅ (js "7")
             200%N [] (Throw SyntaxError)). reflexivity.
Defined.

(** ** Event selection *)

Lemma tagged_truthy (tag : string) (e : value) : tagged tag e = true -> truthy e = true.
Proof. destruct e; simpl; intros H; try discriminate; reflexivity. Qed.

Lemma find__truthy (tag : string) (events : list value) (e : value) :
  List.find (tagged tag) events = Some e -> truthy e = true.
Proof. intros H. apply find_some in H as [_ H]. exact (tagged_truthy _ _ H). Qed.

Lemma chooseEvent_refines (events : list value) :
  chooseEvent events = default VUndefined (chooseEvent_spec events).
Proof.
  unfold chooseEvent, chooseEvent_spec, find_.
  destruct (List.find (tagged "lookup_answer") events) as [e|] eqn:Hl.
  - pose proof (find__truthy _ _ _ Hl) as Ht.
    unfold or_. rewrite Ht, Ht. reflexivity.
  - destruct (List.find (tagged "answer") events) as [e|] eqn:Ha.
    + pose proof (find__truthy _ _ _ Ha) as Ht.
      unfold or_. cbn [truthy]. rewrite Ht. reflexivity.
    + unfold or_. cbn [truthy]. destruct events; reflexivity.
Qed.

(** What the [try] block returns for a body that parses to an array. *)
Lemma askDocsBot_try_parsed (rt : Runtime) (cfg : GateConfig) (status : N)
    (text : jsstr) (events : list value) (r : AnswerResult) :
  isEmpty text || str_eqb text (js "null") = false ->
  askDocsBot_try rt cfg (Response true status (BodyText text (Ret (VArr events)))) = Ret r ->
  r_chosen r = chooseEvent events
  /\ answerOf (r_chosen r) = Ret (r_answer r)
  /\ r_sources r = sourcesOf (r_chosen r).
Proof.
  intros Htext Hr. simpl in Hr. rewrite Htext in Hr. simpl in Hr.
  destruct (answerOf (chooseEvent events)) as [a|e] eqn:Ha; [|discriminate].
  simpl in Hr.
  destruct (passesStrictGate rt cfg a _ _) as [b|e]; [|discriminate].
  simpl in Hr. injection Hr as <-. simpl. auto.
Qed.

(** C7. The chosen event is the first event tagged [lookup_answer], else the
    first tagged [answer], else the first element, and undefined for an
    empty array; the answer is the empty string when the chosen event has
    none and the trimmed text when it has one; the sources are the empty
    list unless the [sources] field is a list. This is what the [try]
    block returns for a parsed array. *)
Theorem C7_event_selection (rt : Runtime) (cfg : GateConfig) (events : list value) :
  chooseEvent events = default VUndefined (chooseEvent_spec events)
  /\ chooseEvent [] = VUndefined
  /\ answerOf VUndefined = Ret []
  /\ sourcesOf VUndefined = []
  /\ (forall chosen : value,
        isNullish (getOpt (getOpt chosen "data") "answer") = true ->
        answerOf chosen = Ret [])
  /\ (forall (chosen : value) (s : jsstr),
        getOpt (getOpt chosen "data") "answer" = VStr s ->
        answerOf chosen = Ret (trim s))
  /\ (forall chosen : value,
        isArray (getOpt (getOpt chosen "data") "sources") = false ->
        sourcesOf chosen = [])
  /\ (forall (chosen : value) (items : list value),
        getOpt (getOpt chosen "data") "sources" = VArr items ->
        sourcesOf chosen = items)
  /\ (forall (status : N) (text : jsstr) (r : AnswerResult),
        isEmpty text || str_eqb text (js "null") = false ->
        askDocsBot_try rt cfg (Response true status (BodyText text (Ret (VArr events))))
        = Ret r ->
        r_chosen r = chooseEvent events
        /\ answerOf (r_chosen r) = Ret (r_answer r)
        /\ r_sources r = sourcesOf (r_chosen r)).
Proof.
  split; [apply chooseEvent_refines|].
  do 3 (split; [reflexivity|]).
  split; [|split; [|split; [|split]]].
  - intros chosen H. unfold answerOf.
    destruct (getOpt (getOpt chosen "data") "answer"); try discriminate; reflexivity.
  - intros chosen s H. unfold answerOf. rewrite H. reflexivity.
  - intros chosen H. unfold sourcesOf.
    destruct (getOpt (getOpt chosen "data") "sources"); try discriminate; reflexivity.
  - intros chosen items H. unfold sourcesOf. rewrite H. reflexivity.
  - intros status text r Htext Hr. apply (askDocsBot_try_parsed rt cfg status text).
    + exact Htext.
    + exact Hr.
Qed.

Lemma C7_witness :
  chooseEvent [VObj [(js "event", VStr (js "answer"))]; lookupEvent goodAnswer [] 0.6]
  = lookupEvent goodAnswer [] 0.6.
Proof.
  rewrite (proj1 (C7_event_selection asciiRuntime defaultConfig _)). reflexivity.
Defined.

(** ** Formatting *)

Lemma length_slice0 (n : nat) (s : jsstr) : length (slice0 n s) <= n.
Proof. unfold slice0. apply firstn_le_length. Qed.

Lemma In_firstn_inv {A} (x : A) (n : nat) (l : list A) : In x (firstn n l) -> In x l.
Proof.
  revert l. induction n as [|n IH]; intros [|y l] H; simpl in H; try contradiction.
  destruct H as [-> | H]; [left; reflexivity | right; apply IH; exact H].
Qed.

Lemma mapM_outcome_length {A B} (f : A -> outcome B) (l : list A) (k : list B) :
  mapM f l = Ret k -> length k = length l.
Proof.
  revert k. induction l as [|x l IH]; intros k H; simpl in H.
  - injection H as <-. reflexivity.
  - destruct (f x) as [y|e]; [|discriminate]. simpl in H.
    destruct (mapM f l) as [k'|e]; [|discriminate]. simpl in H.
    injection H as <-. simpl. rewrite (IH k' eq_refl). reflexivity.
Qed.

Lemma mapM_outcome_Forall {A B} (f : A -> outcome B) (P : B -> Prop) (l : list A) :
  Forall (fun x => exists y, f x = Ret y /\ P y) l ->
  exists k, mapM f l = Ret k /\ Forall P k.
Proof.
  induction 1 as [|x l [y [Hy HP]] _ [k [Hk HPk]]]; simpl.
  - exists []. split; [reflexivity | constructor].
  - exists (y :: k). rewrite Hy. simpl. rewrite Hk. simpl.
    split; [reflexivity | constructor; assumption].
Qed.

Lemma sourceList_bounds (rt : Runtime) (sources : list value) (block : jsstr) :
  sourceList rt sources = Ret (Some block) ->
  length block <= 1024
  /\ exists lines, mapM (sourceLine rt) (firstn 5 sources) = Ret lines
                   /\ length lines <= 5
                   /\ block = slice0 1024 (join [10%N] lines).
Proof.
  unfold sourceList. destruct (0 <? length sources)%nat; [|discriminate].
  destruct (mapM (sourceLine rt) (firstn 5 sources)) as [lines|e] eqn:Hm;
    [|discriminate].
  simpl.
  match goal with |- Ret (if ?b then _ else _) = _ -> _ => destruct b end;
    [|discriminate].
  intros H. injection H as <-. split; [apply length_slice0|].
  exists lines. split; [reflexivity|]. split; [|reflexivity].
  rewrite (mapM_outcome_length _ _ _ Hm). apply firstn_le_length.
Qed.

Lemma buildResponse_bound (rt : Runtime) (authorId question answer : jsstr)
    (sources : list value) (text : jsstr) :
  buildResponse rt authorId question answer sources = Ret text -> length text <= 2000.
Proof.
  unfold buildResponse. cbv zeta.
  match goal with |- (?m ≫= _) = _ -> _ => destruct m as [response'|e] end;
    [|discriminate].
  simpl. destruct (2000 <? length response')%nat eqn:Hlen; intros H; injection H as <-.
  - rewrite length_app. pose proof (length_slice0 1997 response'). simpl. lia.
  - apply Nat.ltb_ge in Hlen. exact Hlen.
Qed.

Lemma sourceLine_plain (rt : Runtime) (s : value) :
  plainSource s = true -> exists line, sourceLine rt s = Ret line /\ True.
Proof.
  unfold plainSource, sourceLine, getDot. intros H.
  apply andb_true_iff in H as [H Hu]. apply andb_true_iff in H as [Hn Ht].
  apply negb_true_iff in Hn. rewrite Hn. simpl.
  destruct (prop s "title") as [| | | |[|c t]| |]; try discriminate; simpl;
    destruct (prop s "url") as [| | | |[|c' u]| |]; try discriminate; simpl; eauto.
Qed.





(** A long answer and many sources are cut: 5000 code units give a
    description of 4000 and a channel message of 2000, and of seven sources
    five are listed. *)
Lemma truncation_examples :
  (exists e, buildEmbed asciiRuntime (repeat 97%N 5000) threeSources = Ret e
             /\ length (description e) = 4000)
  /\ (exists text,
        buildResponse asciiRuntime (js "7") (js "why?") (repeat 97%N 5000) threeSources
        = Ret text /\ length text = 2000)
  /\ (exists lines,
        mapM (sourceLine asciiRuntime)
          (firstn 5 (threeSources ++ threeSources ++ [docSource "More" "https://docs.example/more"]))
        = Ret lines /\ length lines = 5).
Proof.
  split; [|split]; eexists; (split; [vm_compute; reflexivity|]); vm_compute; reflexivity.
Qed.

(** ** Conversation tracking *)

Lemma newId_nonempty (g : IdSource) : newId g <> [].
Proof.
  unfold newId. destruct (randomUUID g) as [[|c u]|]; try discriminate.
  - intros H. apply app_eq_nil in H as [_ H]. discriminate.
  - intros H. apply app_eq_nil in H as [_ H]. discriminate.
Qed.

Lemma getConversationIdForUser_stored (g : IdSource) (convoByUser : gmap jsstr jsstr)
    (userId id : jsstr) :
  convoByUser !! userId = Some id -> id <> [] ->
  getConversationIdForUser g convoByUser userId = (convoByUser, id).
Proof.
  intros H Hne. unfold getConversationIdForUser. rewrite H.
  destruct id; [contradiction | reflexivity].
Qed.

Lemma getConversationIdForUser_fresh (g : IdSource) (convoByUser : gmap jsstr jsstr)
    (userId : jsstr) :
  convoByUser !! userId = None ->
  getConversationIdForUser g convoByUser userId
  = (<[userId := newId g]> convoByUser, newId g).
Proof. intros H. unfold getConversationIdForUser. rewrite H. reflexivity. Qed.

(** C9. For a user without a stored id, [getConversationIdForUser] returns
    the id the host generates at that call, which is not empty, and stores
    it; a second call returns the same id and leaves the map as it is,
    whatever the host would generate; after the user's entry is deleted, a
    call returns and stores the id generated at that call. *)
Theorem C9_conversation_ids
    (g g' g'' : IdSource) (convoByUser : gmap jsstr jsstr) (userId : jsstr) :
  convoByUser !! userId = None ->
  getConversationIdForUser g convoByUser userId
  = (<[userId := newId g]> convoByUser, newId g)
  /\ newId g <> []
  /\ (<[userId := newId g]> convoByUser) !! userId = Some (newId g)
  /\ getConversationIdForUser g' (<[userId := newId g]> convoByUser) userId
     = (<[userId := newId g]> convoByUser, newId g)
  /\ getConversationIdForUser g'' (delete userId (<[userId := newId g]> convoByUser)) userId
     = (<[userId := newId g'']> (delete userId (<[userId := newId g]> convoByUser)),
        newId g'').
Proof.
  intros H. split; [apply getConversationIdForUser_fresh; exact H|].
  split; [apply newId_nonempty|].
  split; [apply lookup_insert_eq|].
  split.
  - apply getConversationIdForUser_stored; [apply lookup_insert_eq | apply newId_nonempty].
  - apply getConversationIdForUser_fresh. apply lookup_delete_eq.
Qed.

Lemma C9_witness :
  getConversationIdForUser exampleIds ∅ (js "7")
  = (<[js "7" := newId exampleIds]> ∅, newId exampleIds)
  /\ getConversationIdForUser legacyIds (<[js "7" := newId exampleIds]> ∅) (js "7")
     = (<[js "7" := newId exampleIds]> ∅, newId exampleIds)
  /\ snd (getConversationIdForUser legacyIds
            (delete (js "7") (<[js "7" := newId exampleIds]> ∅)) (js "7"))
     = js "1700000000000-0.25".
Proof.
  destruct (C9_conversation_ids exampleIds legacyIds legacyIds ∅ (js "7"))
    as (H1 & _ & _ & H2 & H3).
  { apply lookup_empty. }
  split; [exact H1|]. split; [exact H2|]. rewrite H3. reflexivity.
Defined.

(** ** The reset command *)

(** C10. A message of a user that is not a bot whose trimmed, lower-cased
    content is "new topic" is handled before the mention and channel tests:
    in any channel, mentioned or not, the handler deletes the author's
    entry of the conversation map, leaves every other entry as it was,
    replies with the confirmation and sends no question to the API. *)
Theorem C10_new_topic_reset
    (rt : Runtime) (cfg : GateConfig) (autoChannels : gset jsstr) (w : World)
    (convoByUser : gmap jsstr jsstr) (msg : Message) :
  author_bot msg = false ->
  toLowerCase rt (trim (content msg)) = js "new topic" ->
  onMessageCreate rt cfg autoChannels w convoByUser msg
  = (delete (author_id msg) convoByUser, [Reply newTopicReply])
  /\ fst (onMessageCreate rt cfg autoChannels w convoByUser msg) !! author_id msg = None
  /\ (forall u : jsstr, u <> author_id msg ->
        fst (onMessageCreate rt cfg autoChannels w convoByUser msg) !! u
        = convoByUser !! u)
  /\ existsb isFetch (snd (onMessageCreate rt cfg autoChannels w convoByUser msg)) = false.
Proof.
  intros Hbot Htext.
  assert (Hrun : onMessageCreate rt cfg autoChannels w convoByUser msg
                 = (delete (author_id msg) convoByUser, [Reply newTopicReply])).
  { unfold onMessageCreate. rewrite Hbot, Htext.
    unfold str_eqb. rewrite bool_decide_eq_true_2; reflexivity. }
  rewrite Hrun. simpl. split; [reflexivity|].
  split; [apply lookup_delete_eq|].
  split; [|reflexivity].
  intros u Hu. apply lookup_delete_ne. congruence.
Qed.

Lemma C10_witness :
  onMessageCreate asciiRuntime defaultConfig channel42 answeringWorld twoUsers
    newTopicMessage
  = (delete (js "7") twoUsers, [Reply newTopicReply])
  /\ fst (onMessageCreate asciiRuntime defaultConfig channel42 answeringWorld twoUsers
            newTopicMessage) !! js "8" = Some (js "conv-of-8").
Proof.
  destruct (C10_new_topic_reset asciiRuntime defaultConfig channel42 answeringWorld
              twoUsers newTopicMessage eq_refl eq_refl) as (H1 & _ & H2 & _).
  split; [exact H1|].
  rewrite (H2 (js "8")); [reflexivity | discriminate].
Defined.

(** ** Mention stripping: the fuel is enough *)

Lemma dropDigits_length (s : jsstr) : length (dropDigits s) <= length s.
Proof.
  induction s as [|c r IH]; simpl; [lia|].
  destruct (isDigit c); simpl; lia.
Qed.

Lemma mentionAt_shorter (s rest : jsstr) :
  mentionAt s = Some rest -> length rest < length s.
Proof.
  unfold mentionAt.
  destruct s as [|a [|b r]]; try discriminate.
  destruct ((a =? 60) && (b =? 64))%N; [|discriminate].
  set (r1 := match r with
             | c :: r' => if (c =? 33)%N then r' else r
             | [] => r
             end).
  assert (Hr1 : length r1 <= length r).
  { subst r1. destruct r as [|c r]; [lia|]. destruct (c =? 33)%N; simpl; lia. }
  destruct r1 as [|d r1'] eqn:Hd; [discriminate|].
  destruct (isDigit d); [|discriminate].
  pose proof (dropDigits_length (d :: r1')) as Hdd.
  destruct (dropDigits (d :: r1')) as [|c r2]; [discriminate|].
  destruct (c =? 62)%N; [|discriminate].
  intros H. injection H as <-. simpl in *. lia.
Qed.

Lemma stripMentionsFrom_fuel (n m : nat) (s : jsstr) :
  length s <= n -> length s <= m -> stripMentionsFrom n s = stripMentionsFrom m s.
Proof.
  revert m s. induction n as [|n IH]; intros m s Hn Hm.
  - destruct s; [destruct m; reflexivity | simpl in Hn; lia].
  - destruct s as [|c r]; [destruct m; reflexivity|].
    destruct m as [|m]; [simpl in Hm; lia|].
    cbn [stripMentionsFrom].
    destruct (mentionAt (c :: r)) as [rest|] eqn:Hat.
    + apply mentionAt_shorter in Hat. simpl in *. apply IH; lia.
    + f_equal. simpl in *. apply IH; lia.
Qed.

(** [stripMentions] is the replacement run to its end: more fuel changes
    nothing. *)
Lemma stripMentions_fuel (n : nat) (s : jsstr) :
  length s <= n -> stripMentionsFrom n s = stripMentions s.
Proof. intros H. unfold stripMentions. apply stripMentionsFrom_fuel; lia. Qed.

(** ** Scenarios *)

(** The command path: an accepted answer is edited in as an embed; a
    timeout gives the notice. The ambient path sends nothing on a timeout. *)
Lemma scenarios :
  (exists embed,
     snd (onInteractionCreate asciiRuntime defaultConfig answeringWorld ∅ (js "ask")
            (js "7") (js "What is the reward vault?"))
     = [DeferReply;
        Fetch (newId exampleIds) (js "What is the reward vault?");
        EditReplyEmbed embed]
     /\ description embed = goodAnswer)
  /\ snd (onInteractionCreate asciiRuntime defaultConfig timeoutWorld ∅ (js "ask")
            (js "7") (js "What is the reward vault?"))
     = [DeferReply;
        Fetch (newId exampleIds) (js "What is the reward vault?");
        EditReplyContent noConfidentAnswer]
  /\ snd (onMessageCreate asciiRuntime defaultConfig channel42 timeoutWorld ∅
            (ambientMessage "what is the staking APY?"))
     = [SendTyping; Fetch (newId exampleIds) (js "what is the staking APY?")]
  /\ stripMentions (js "<@!123> hello <@45>") = js " hello ".
Proof.
  split; [eexists; split; vm_compute; reflexivity|].
  repeat split; vm_compute; reflexivity.
Qed.

(** * The rest of the program *)

(** ** Numbers: order through the binary64 specification *)

Lemma is_nan_spec (x : float) :
  is_nan x = match Prim2SF x with S754_nan => true | _ => false end.
Proof.
  unfold is_nan. rewrite FloatAxioms.eqb_spec.
  destruct (Prim2SF x) as [s|s| |s m e]; try reflexivity.
  - destruct s; reflexivity.
  - rewrite SFeqb_finite_refl. reflexivity.
Qed.

Lemma SFcompare_antisym (x y : spec_float) :
  SFcompare y x = option_map CompOpp (SFcompare x y).
Proof.
  destruct x as [sx|sx| |sx mx ex], y as [sy|sy| |sy my ey]; simpl;
    try reflexivity; try (destruct sx; reflexivity); try (destruct sy; reflexivity);
    try (destruct sx, sy; reflexivity).
  destruct sx, sy; simpl; try reflexivity.
  - rewrite (Z.compare_antisym ex ey).
    destruct (ex ?= ey)%Z; simpl; try reflexivity.
    rewrite CompOpp_involutive.
    rewrite (Pos.compare_cont_antisym my mx Eq). reflexivity.
  - rewrite (Z.compare_antisym ex ey).
    destruct (ex ?= ey)%Z; simpl; try reflexivity.
    rewrite (Pos.compare_cont_antisym mx my Eq). reflexivity.
Qed.

Lemma SFcompare_refl (x : spec_float) :
  x <> S754_nan -> SFcompare x x = Some Eq.
Proof.
  destruct x as [s|s| |s m e]; simpl; intros H; try reflexivity.
  - destruct s; reflexivity.
  - contradiction.
  - rewrite Z.compare_refl, Pos.compare_cont_refl. destruct s; reflexivity.
Qed.

Lemma leb_refl (x : float) : is_nan x = false -> (x <=? x)%float = true.
Proof.
  rewrite is_nan_spec, FloatAxioms.leb_spec. intros H. unfold SFleb.
  rewrite SFcompare_refl; [reflexivity|]. intros E. rewrite E in H. discriminate.
Qed.

Lemma ltb_leb (x y : float) : (x <? y)%float = true -> (x <=? y)%float = true.
Proof.
  rewrite FloatAxioms.ltb_spec, FloatAxioms.leb_spec. unfold SFltb, SFleb.
  destruct (SFcompare (Prim2SF x) (Prim2SF y)) as [[| |]|]; intros H;
    try discriminate; reflexivity.
Qed.

(** Two numbers neither of which is NaN or below the other are each at
    most the other. *)
Lemma not_ltb_leb (x y : float) :
  is_nan x = false -> is_nan y = false ->
  (x <? y)%float = false -> (y <? x)%float = false ->
  (x <=? y)%float = true /\ (y <=? x)%float = true.
Proof.
  rewrite !is_nan_spec, !FloatAxioms.ltb_spec, !FloatAxioms.leb_spec.
  unfold SFltb, SFleb. rewrite (SFcompare_antisym (Prim2SF x) (Prim2SF y)).
  destruct (Prim2SF x) as [sx|sx| |sx mx ex] eqn:Hx; try discriminate;
    destruct (Prim2SF y) as [sy|sy| |sy my ey] eqn:Hy; try discriminate;
    intros _ _;
    destruct (SFcompare _ _) as [[| |]|] eqn:Hc; simpl; intros H1 H2;
    try discriminate; try (split; reflexivity);
    destruct sx, sy; simpl in Hc; try discriminate.
Qed.

Lemma Math_max_nan (a b : float) : is_nan (Math_max a b) = is_nan a || is_nan b.
Proof.
  unfold Math_max. destruct (is_nan a) eqn:Ha; [reflexivity|].
  destruct (is_nan b) eqn:Hb; [reflexivity|]. simpl.
  destruct (a <? b)%float; [exact Hb|].
  destruct (b <? a)%float; [exact Ha|].
  destruct (get_sign a); assumption.
Qed.

Lemma Math_min_nan (a b : float) : is_nan (Math_min a b) = is_nan a || is_nan b.
Proof.
  unfold Math_min. destruct (is_nan a) eqn:Ha; [reflexivity|].
  destruct (is_nan b) eqn:Hb; [reflexivity|]. simpl.
  destruct (a <? b)%float; [exact Ha|].
  destruct (b <? a)%float; [exact Hb|].
  destruct (get_sign a); assumption.
Qed.

Lemma Math_max_bounds (a b : float) :
  is_nan a = false -> is_nan b = false ->
  (Math_max a b = a \/ Math_max a b = b)
  /\ (a <=? Math_max a b)%float = true /\ (b <=? Math_max a b)%float = true.
Proof.
  intros Ha Hb. unfold Math_max. rewrite Ha, Hb. simpl.
  destruct (a <? b)%float eqn:Hab.
  { split; [right; reflexivity|]. split; [apply ltb_leb; exact Hab | apply leb_refl; exact Hb]. }
  destruct (b <? a)%float eqn:Hba.
  { split; [left; reflexivity|]. split; [apply leb_refl; exact Ha | apply ltb_leb; exact Hba]. }
  destruct (not_ltb_leb a b Ha Hb Hab Hba) as [H1 H2].
  destruct (get_sign a).
  - split; [right; reflexivity|]. split; [exact H1 | apply leb_refl; exact Hb].
  - split; [left; reflexivity|]. split; [apply leb_refl; exact Ha | exact H2].
Qed.

Lemma Math_min_bounds (a b : float) :
  is_nan a = false -> is_nan b = false ->
  (Math_min a b = a \/ Math_min a b = b)
  /\ (Math_min a b <=? a)%float = true /\ (Math_min a b <=? b)%float = true.
Proof.
  intros Ha Hb. unfold Math_min. rewrite Ha, Hb. simpl.
  destruct (a <? b)%float eqn:Hab.
  { split; [left; reflexivity|]. split; [apply leb_refl; exact Ha | apply ltb_leb; exact Hab]. }
  destruct (b <? a)%float eqn:Hba.
  { split; [right; reflexivity|]. split; [apply ltb_leb; exact Hba | apply leb_refl; exact Hb]. }
  destruct (not_ltb_leb a b Ha Hb Hab Hba) as [H1 H2].
  destruct (get_sign a).
  - split; [left; reflexivity|]. split; [apply leb_refl; exact Ha | exact H1].
  - split; [right; reflexivity|]. split; [exact H2 | apply leb_refl; exact Hb].
Qed.

Lemma ltb_nan_r (x y : float) : is_nan y = true -> (x <? y)%float = false.
Proof.
  rewrite is_nan_spec, FloatAxioms.ltb_spec. unfold SFltb.
  destruct (Prim2SF y); try discriminate. intros _.
  destruct (Prim2SF x); reflexivity.
Qed.

(** ** Start-up *)

(** X1. Whatever the environment holds and whatever the host's parsers
    return, the computed [MIN_SRC] and [MIN_LEN] are NaN or at least 0, and
    [MIN_CONF] is NaN or between 0 and 1; each is NaN exactly when its
    variable (or its default) parses to NaN. *)
Theorem X1_config_bounds
    (rt : Runtime) (parseInt10 parseFloat : jsstr -> float) (env : GateEnv) :
  let cfg := loadGateConfig rt parseInt10 parseFloat env in
  (if is_nan (MIN_SRC cfg) then True else (0 <=? MIN_SRC cfg)%float = true)
  /\ (if is_nan (MIN_LEN cfg) then True else (0 <=? MIN_LEN cfg)%float = true)
  /\ (if is_nan (MIN_CONF cfg) then True
      else (0 <=? MIN_CONF cfg)%float = true /\ (MIN_CONF cfg <=? 1)%float = true)
  /\ is_nan (MIN_SRC cfg) = is_nan (parseInt10 (orDefault (MIN_SOURCES env) "1"))
  /\ is_nan (MIN_LEN cfg) = is_nan (parseInt10 (orDefault (MIN_ANSWER_CHARS env) "40"))
  /\ is_nan (MIN_CONF cfg) = is_nan (parseFloat (orDefault (MIN_CONFIDENCE env) "0.35")).
Proof.
  cbv zeta. simpl.
  set (s := parseInt10 (orDefault (MIN_SOURCES env) "1")).
  set (l := parseInt10 (orDefault (MIN_ANSWER_CHARS env) "40")).
  set (c := parseFloat (orDefault (MIN_CONFIDENCE env) "0.35")).
  assert (H0 : is_nan 0 = false) by reflexivity.
  assert (H1 : is_nan 1 = false) by reflexivity.
  rewrite !Math_max_nan, Math_min_nan, H0, H1. simpl.
  repeat split.
  - destruct (is_nan s) eqn:Hs; [exact I|]. apply (Math_max_bounds 0 s H0 Hs).
  - destruct (is_nan l) eqn:Hl; [exact I|]. apply (Math_max_bounds 0 l H0 Hl).
  - destruct (is_nan c) eqn:Hc; [exact I|].
    assert (Hm : is_nan (Math_min 1 c) = false).
    { rewrite Math_min_nan, H1, Hc. reflexivity. }
    destruct (Math_max_bounds 0 (Math_min 1 c) H0 Hm) as [[E | E] [Hlo _]].
    + rewrite E. split; reflexivity.
    + split; [exact Hlo|]. rewrite E. apply (Math_min_bounds 1 c H1 Hc).
Qed.

Lemma looksLikeFallback_no_minimum (cfg : GateConfig) (text : jsstr) :
  is_nan (MIN_LEN cfg) = true ->
  looksLikeFallback cfg text =
  isEmpty (trim text) || existsb (fun re => test re (trim text)) FALLBACK_PATTERNS.
Proof.
  intros H. unfold looksLikeFallback. destruct text as [|c text]; [reflexivity|].
  cbv zeta. rewrite (ltb_nan_r _ _ H).
  destruct (trim (c :: text)); reflexivity.
Qed.

(** X2. A minimum that is NaN switches its check off: in strict mode with
    the three minima NaN, the gate rejects exactly the answers that are
    empty after trimming or match a fallback pattern, whatever the sources
    and the confidence; the confidence is still read, so a conversion that
    throws still throws. *)
Theorem X2_nan_minimum_disables_check
    (rt : Runtime) (cfg : GateConfig) (answer : jsstr) (sources chosen : value) :
  STRICT cfg = true ->
  is_nan (MIN_SRC cfg) = true -> is_nan (MIN_LEN cfg) = true ->
  is_nan (MIN_CONF cfg) = true ->
  passesStrictGate rt cfg answer sources chosen =
  if isEmpty (trim answer)
     || existsb (fun re => test re (trim answer)) FALLBACK_PATTERNS
  then Ret false
  else (_ ← extractConfidence rt chosen; Ret true).
Proof.
  intros Hs Hsrc Hlen Hconf. unfold passesStrictGate.
  rewrite Hs, (looksLikeFallback_no_minimum _ _ Hlen). simpl.
  destruct (isEmpty (trim answer) || _); [reflexivity|].
  rewrite (ltb_nan_r 0 _ Hsrc). simpl.
  destruct (extractConfidence rt chosen) as [raw|e]; [|reflexivity]. simpl.
  rewrite (ltb_nan_r _ _ Hconf), andb_false_r. reflexivity.
Qed.

Lemma X2_witness :
  passesStrictGate asciiRuntime unparsedConfig (js "Yes.") (VArr [])
    (lookupEvent (js "Yes.") [] 0.01) = Ret true.
Proof.
  rewrite (X2_nan_minimum_disables_check asciiRuntime unparsedConfig (js "Yes.") (VArr [])
             (lookupEvent (js "Yes.") [] 0.01)); reflexivity.
Defined.

(** ** The auto-answer channels *)

Lemma trimStart_idempotent (s : jsstr) : trimStart (trimStart s) = trimStart s.
Proof.
  induction s as [|c r IH]; [reflexivity|]. simpl.
  destruct (isWhiteSpace c) eqn:Hc; [exact IH|]. simpl. rewrite Hc. reflexivity.
Qed.

Lemma trimStart_solid (c : N) (s : jsstr) :
  isWhiteSpace c = false -> trimStart (c :: s) = c :: s.
Proof. intros H. simpl. rewrite H. reflexivity. Qed.

Lemma trimStart_head (s : jsstr) :
  match trimStart s with
  | [] => True
  | c :: _ => isWhiteSpace c = false
  end.
Proof.
  induction s as [|c r IH]; [exact I|]. simpl.
  destruct (isWhiteSpace c) eqn:Hc; [exact IH | exact Hc].
Qed.

Lemma trim_idempotent (s : jsstr) : trim (trim s) = trim s.
Proof.
  unfold trim.
  assert (H : trimStart (trimEnd (trimStart s)) = trimEnd (trimStart s)).
  { pose proof (trimStart_head s) as Hh.
    destruct (trimEnd_split (trimStart s)) as [r [Hr _]].
    destruct (trimEnd (trimStart s)) as [|c u]; [reflexivity|].
    rewrite Hr in Hh. simpl in Hh. apply trimStart_solid. exact Hh. }
  rewrite H. unfold trimEnd. rewrite rev_involutive, trimStart_idempotent. reflexivity.
Qed.

Lemma In_trim (x : N) (s : jsstr) : In x (trim s) -> In x s.
Proof.
  destruct (trim_split s) as [l [r [Hs _]]]. intros H. rewrite Hs.
  apply in_or_app. right. apply in_or_app. left. exact H.
Qed.

Lemma splitOn_nonempty (sep : N) (s : jsstr) : splitOn sep s <> [].
Proof.
  destruct s as [|c r]; simpl; [discriminate|].
  destruct (c =? sep)%N; [discriminate|].
  destruct (splitOn sep r); discriminate.
Qed.

Lemma splitOn_no_sep (sep : N) (s p : jsstr) :
  In p (splitOn sep s) -> ~ In sep p.
Proof.
  revert p. induction s as [|c r IH]; simpl; intros p H.
  - destruct H as [<- | []]. intros [].
  - destruct (c =? sep)%N eqn:Hc.
    + destruct H as [<- | H]; [intros [] | apply IH; exact H].
    + apply N.eqb_neq in Hc.
      destruct (splitOn sep r) as [|q qs] eqn:Hq.
      * destruct H as [<- | []]. intros [E | []]. congruence.
      * destruct H as [<- | H].
        -- intros [E | E]; [congruence|]. apply (IH q); [left; reflexivity | exact E].
        -- apply IH. right. exact H.
Qed.

(** A text without the separator is one piece, and a separator after such
    a text starts the next piece. *)
Lemma splitOn_piece (sep : N) (p : jsstr) :
  ~ In sep p -> splitOn sep p = [p].
Proof.
  induction p as [|c p IH]; intros H; [reflexivity|]. simpl.
  destruct (c =? sep)%N eqn:Hc.
  - apply N.eqb_eq in Hc. exfalso. apply H. left. exact Hc.
  - rewrite IH; [reflexivity|]. intros E. apply H. right. exact E.
Qed.

Lemma splitOn_app (sep : N) (p s : jsstr) :
  ~ In sep p -> splitOn sep (p ++ sep :: s) = p :: splitOn sep s.
Proof.
  induction p as [|c p IH]; intros H; simpl.
  - rewrite N.eqb_refl. reflexivity.
  - destruct (c =? sep)%N eqn:Hc.
    + apply N.eqb_eq in Hc. exfalso. apply H. left. exact Hc.
    + rewrite IH; [reflexivity|]. intros E. apply H. right. exact E.
Qed.

Lemma splitOn_join (sep : N) (parts : list jsstr) :
  parts <> [] -> Forall (fun p => ~ In sep p) parts ->
  splitOn sep (join [sep] parts) = parts.
Proof.
  induction parts as [|p rest IH]; intros Hne Hall; [contradiction|].
  inversion Hall as [|? ? Hp Hrest]; subst.
  destruct rest as [|q rest].
  - simpl. apply splitOn_piece. exact Hp.
  - change (join [sep] (p :: q :: rest)) with (p ++ sep :: join [sep] (q :: rest)).
    rewrite splitOn_app by exact Hp. rewrite IH; [reflexivity | discriminate | exact Hrest].
Qed.

Lemma cleanId_spec (s : jsstr) :
  cleanId s = true <-> s <> [] /\ trim s = s /\ ~ In 44%N s.
Proof.
  unfold cleanId, str_eqb. rewrite !andb_true_iff, !negb_true_iff, bool_decide_eq_true.
  split.
  - intros [[H1 H2] H3]. split; [destruct s; [discriminate | discriminate]|].
    split; [exact H2|]. intros Hin.
    assert (E : existsb (N.eqb 44) s = true).
    { apply existsb_exists. exists 44%N. split; [exact Hin | apply N.eqb_refl]. }
    congruence.
  - intros [H1 [H2 H3]]. split; [split|].
    + destruct s; [contradiction | reflexivity].
    + exact H2.
    + destruct (existsb (N.eqb 44) s) eqn:E; [|reflexivity].
      apply existsb_exists in E as [x [Hx Hx']]. apply N.eqb_eq in Hx'. subst x.
      contradiction.
Qed.

(** X3. Every id of [autoChannels] is clean: it is not empty, it has no
    white space around it and it holds no comma, whatever the variable
    holds; an unset or empty variable gives no channel. *)
Theorem X3_auto_channels_are_clean (ALLOWED_CHANNEL_IDS : option jsstr) (c : jsstr) :
  (c ∈ parseAutoChannels ALLOWED_CHANNEL_IDS -> cleanId c = true)
  /\ parseAutoChannels None = ∅
  /\ parseAutoChannels (Some []) = ∅.
Proof.
  split; [|split; reflexivity].
  unfold parseAutoChannels, channelIds. rewrite elem_of_list_to_set, list_elem_of_In.
  intros H. apply filter_In in H as [H Hne]. apply in_map_iff in H as [p [<- Hp]].
  apply cleanId_spec. split; [|split].
  - destruct (trim p); [discriminate | discriminate].
  - apply trim_idempotent.
  - intros Hin. apply In_trim in Hin. exact (splitOn_no_sep _ _ _ Hp Hin).
Qed.

(** X4. The variable is read as a comma-separated list: for parts without a
    comma, the ids of their joined text are the trimmed parts that are not
    empty, in order; so a list of clean ids written with commas is read
    back as it is. *)
Theorem X4_auto_channels_round_trip (parts : list jsstr) :
  Forall (fun p => ~ In 44%N p) parts ->
  channelIds (Some (join [44%N] parts))
  = List.filter (fun s => negb (isEmpty s)) (map trim parts)
  /\ (forallb cleanId parts = true ->
      channelIds (Some (join [44%N] parts)) = parts
      /\ parseAutoChannels (Some (join [44%N] parts)) = list_to_set parts).
Proof.
  intros Hall.
  assert (H : channelIds (Some (join [44%N] parts))
              = List.filter (fun s => negb (isEmpty s)) (map trim parts)).
  { unfold channelIds. simpl. destruct parts as [|p rest]; [reflexivity|].
    rewrite splitOn_join; [reflexivity | discriminate | exact Hall]. }
  split; [exact H|]. intros Hclean.
  assert (H' : channelIds (Some (join [44%N] parts)) = parts).
  { rewrite H. clear H Hall. induction parts as [|p rest IH]; [reflexivity|].
    simpl in Hclean. apply andb_true_iff in Hclean as [Hp Hrest].
    apply cleanId_spec in Hp as [Hne [Ht _]]. simpl. rewrite Ht.
    destruct p; [contradiction|]. simpl. rewrite (IH Hrest). reflexivity. }
  split; [exact H'|]. unfold parseAutoChannels. rewrite H'. reflexivity.
Qed.

Lemma X4_witness :
  channelIds (Some (js "1234, 5678 ,,42"))
  = [js "1234"; js "5678"; js "42"]
  /\ parseAutoChannels (Some (js "1234,5678,42"))
     = list_to_set [js "1234"; js "5678"; js "42"].
Proof.
  split.
  - apply (proj1 (X4_auto_channels_round_trip [js "1234"; js " 5678 "; []; js "42"]
                    ltac:(repeat constructor; vm_compute; intuition discriminate))).
  - apply (X4_auto_channels_round_trip [js "1234"; js "5678"; js "42"]
             ltac:(repeat constructor; vm_compute; intuition discriminate)).
    reflexivity.
Defined.

(** ** The gate, beyond the text check *)

Lemma looksLikeFallback_false (cfg : GateConfig) (text : jsstr) :
  looksLikeFallback cfg text = false ->
  trim text <> []
  /\ (lengthNum (trim text) <? MIN_LEN cfg)%float = false
  /\ existsb (fun re => test re text) FALLBACK_PATTERNS = false.
Proof.
  intros H. split; [|split].
  - unfold looksLikeFallback in H. destruct text as [|c text]; [discriminate|].
    cbv zeta in H. destruct (trim (c :: text)); [discriminate | discriminate].
  - destruct (lengthNum (trim text) <? MIN_LEN cfg)%float eqn:E; [|reflexivity].
    rewrite (looksLikeFallback_short _ _ E) in H. discriminate.
  - destruct (existsb (fun re => test re text) FALLBACK_PATTERNS) eqn:E; [|reflexivity].
    rewrite (looksLikeFallback_pattern _ _ E) in H. discriminate.
Qed.

(** X5. In strict mode an accepted answer is substantial: it is not empty
    after trimming, its trimmed length is not below [MIN_LEN], no fallback
    pattern matches it, the source check passed, and the confidence was
    read without an exception and is not a finite value below [MIN_CONF]. *)
Theorem X5_accepted_answer_is_substantial
    (rt : Runtime) (cfg : GateConfig) (answer : jsstr) (sources chosen : value) :
  STRICT cfg = true ->
  passesStrictGate rt cfg answer sources chosen = Ret true ->
  trim answer <> []
  /\ (lengthNum (trim answer) <? MIN_LEN cfg)%float = false
  /\ existsb (fun re => test re answer) FALLBACK_PATTERNS = false
  /\ enoughSources cfg sources = true
  /\ exists raw, extractConfidence rt chosen = Ret raw
                 /\ isFinite (normalizeConfidence raw)
                    && (normalizeConfidence raw <? MIN_CONF cfg)%float = false.
Proof.
  intros Hs H. unfold passesStrictGate in H. rewrite Hs in H. simpl in H.
  destruct (looksLikeFallback cfg answer) eqn:Hf; [discriminate|].
  destruct (looksLikeFallback_false _ _ Hf) as (H1 & H2 & H3).
  split; [exact H1|]. split; [exact H2|]. split; [exact H3|].
  unfold enoughSources. cbv zeta in H.
  destruct ((0 <? MIN_SRC cfg)%float && _); [discriminate|].
  split; [reflexivity|].
  destruct (extractConfidence rt chosen) as [raw|e]; [|discriminate]. simpl in H.
  exists raw. split; [reflexivity|].
  destruct (isFinite (normalizeConfidence raw) && _); [discriminate | reflexivity].
Qed.

Lemma X5_witness :
  trim goodAnswer <> []
  /\ existsb (fun re => test re goodAnswer) FALLBACK_PATTERNS = false.
Proof.
  destruct (X5_accepted_answer_is_substantial asciiRuntime defaultConfig goodAnswer
              (VArr threeSources) (lookupEvent goodAnswer threeSources 0.6)
              eq_refl eq_refl) as (H1 & _ & H3 & _).
  split; [exact H1 | exact H3].
Defined.

Lemma filter_falsy (items : list value) :
  forallb falsy items = true -> List.filter truthy items = [].
Proof.
  induction items as [|v items IH]; [reflexivity|]. simpl. unfold falsy at 1.
  intros H. apply andb_true_iff in H as [Hv H]. apply negb_true_iff in Hv.
  rewrite Hv. apply IH. exact H.
Qed.

(** X6. Entries that are null, false, 0 or empty do not count as sources,
    and neither does a [sources] value that is not a list: in strict mode
    with a minimum of one source, an answer with no other entry is
    rejected, whatever its text and its confidence. *)
Theorem X6_empty_entries_are_no_sources
    (rt : Runtime) (cfg : GateConfig) (answer : jsstr) (sources chosen : value) :
  STRICT cfg = true -> MIN_SRC cfg = 1%float ->
  forallb falsy (arrayOrEmpty sources) = true ->
  passesStrictGate rt cfg answer sources chosen = Ret false.
Proof.
  intros Hs Hmin Hall. unfold passesStrictGate. rewrite Hs. simpl.
  destruct (looksLikeFallback cfg answer); [reflexivity|].
  rewrite (filter_falsy _ Hall), Hmin. reflexivity.
Qed.

Lemma X6_witness :
  passesStrictGate asciiRuntime defaultConfig goodAnswer
    (VArr [VNull; VStr []; VBool false; VNum 0]) (lookupEvent goodAnswer [VNull] 0.9)
  = Ret false
  /\ passesStrictGate asciiRuntime defaultConfig goodAnswer (VStr (js "https://x"))
       (lookupEvent goodAnswer [] 0.9) = Ret false.
Proof.
  split; apply X6_empty_entries_are_no_sources; reflexivity.
Defined.

Lemma Number_primitive (rt rt' : Runtime) (v : value) :
  primitiveValue v = true -> Number rt v = Number rt' v /\ exists n, Number rt v = Ret n.
Proof. destruct v; try discriminate; simpl; eauto. Qed.

Lemma firstFinite_primitive (rt rt' : Runtime) (vs : list value) :
  forallb primitiveValue vs = true ->
  firstFinite rt vs = firstFinite rt' vs /\ exists r, firstFinite rt vs = Ret r.
Proof.
  induction vs as [|v vs IH]; simpl; [eauto|].
  intros H. apply andb_true_iff in H as [Hv Hvs].
  destruct (Number_primitive rt rt' v Hv) as [E [n Hn]]. rewrite <- E, Hn. simpl.
  destruct (isFinite n); [eauto | apply IH; exact Hvs].
Qed.

(** X7. When the confidence-like values of the raw event are undefined,
    null, booleans or numbers, the gate returns a boolean, and the same one
    on every host; and whenever the gate throws, the exception is the one of
    the confidence extraction, raised after the text and source checks
    passed. *)
Theorem X7_gate_throws_only_in_conversion
    (rt rt' : Runtime) (cfg : GateConfig) (answer : jsstr) (sources chosen : value) :
  (forallb primitiveValue (confidenceCandidates chosen) = true ->
   passesStrictGate rt cfg answer sources chosen
   = passesStrictGate rt' cfg answer sources chosen
   /\ exists b, passesStrictGate rt cfg answer sources chosen = Ret b)
  /\ (forall e, passesStrictGate rt cfg answer sources chosen = Throw e ->
        extractConfidence rt chosen = Throw e
        /\ STRICT cfg = true /\ looksLikeFallback cfg answer = false
        /\ enoughSources cfg sources = true).
Proof.
  split.
  - intros Hprim. destruct (firstFinite_primitive rt rt' _ Hprim) as [E [r Hr]].
    unfold passesStrictGate. rewrite !extractConfidence_scan, <- E, Hr. simpl.
    destruct (negb (STRICT cfg)); [eauto|].
    destruct (looksLikeFallback cfg answer); [eauto|].
    destruct ((0 <? MIN_SRC cfg)%float && _); [eauto|].
    destruct (isFinite (normalizeConfidence (default nan r)) && _); eauto.
  - intros e H. unfold passesStrictGate in H. unfold enoughSources.
    destruct (STRICT cfg); [|discriminate]. simpl in H.
    destruct (looksLikeFallback cfg answer); [discriminate|].
    destruct ((0 <? MIN_SRC cfg)%float && _); [discriminate|].
    destruct (extractConfidence rt chosen) as [raw|e']; simpl in H.
    + destruct (isFinite (normalizeConfidence raw) && _); discriminate.
    + injection H as ->. auto.
Qed.

Lemma X7_witness :
  exists b, passesStrictGate asciiRuntime defaultConfig goodAnswer (VArr threeSources)
              nullConfidenceEvent = Ret b.
Proof.
  apply (X7_gate_throws_only_in_conversion asciiRuntime asciiRuntime defaultConfig
           goodAnswer (VArr threeSources) nullConfidenceEvent). reflexivity.
Defined.

(** ** The text check does not see the case of ASCII letters *)

Lemma canon_idempotent (c : N) : canon (canon c) = canon c.
Proof.
  unfold canon. destruct ((97 <=? c) && (c <=? 122))%N eqn:H; [|rewrite H; reflexivity].
  apply andb_true_iff in H as [H1 H2]. apply N.leb_le in H1. apply N.leb_le in H2.
  destruct ((97 <=? c - 32) && (c - 32 <=? 122))%N eqn:H'; [|reflexivity].
  apply andb_true_iff in H' as [H3 _]. apply N.leb_le in H3. lia.
Qed.

Lemma ciEq_canon (p c : N) : ciEq p (canon c) = ciEq p c.
Proof. unfold ciEq. rewrite canon_idempotent. reflexivity. Qed.

Lemma ciPrefix_canon (w s : jsstr) :
  ciPrefix w (map canon s) = option_map (map canon) (ciPrefix w s).
Proof.
  revert s. induction w as [|p w IH]; intros s; [reflexivity|].
  destruct s as [|c s]; [reflexivity|]. simpl. rewrite ciEq_canon.
  destruct (ciEq p c); [apply IH | reflexivity].
Qed.

Lemma spaces1_canon (s : jsstr) :
  spaces1 (map canon s) = map (map canon) (spaces1 s).
Proof.
  induction s as [|c s IH]; [reflexivity|]. simpl. rewrite isWhiteSpace_canon.
  destruct (isWhiteSpace c); [|reflexivity]. simpl. rewrite IH. reflexivity.
Qed.

Lemma run_canon (re : regex) (s : jsstr) :
  run re (map canon s) = map (map canon) (run re s).
Proof.
  revert s. induction re as [w|cs| |a IHa b IHb|a IHa b IHb]; intros s; simpl.
  - rewrite ciPrefix_canon. destruct (ciPrefix w s); reflexivity.
  - destruct s as [|c s]; [reflexivity|]. simpl.
    assert (E : existsb (fun p => ciEq p (canon c)) cs = existsb (fun p => ciEq p c) cs).
    { induction cs as [|p cs IH]; [reflexivity|]. simpl. rewrite ciEq_canon, IH. reflexivity. }
    rewrite E. clear E. destruct (existsb (fun p => ciEq p c) cs); reflexivity.
  - apply spaces1_canon.
  - rewrite IHa. induction (run a s) as [|r l IH]; [reflexivity|].
    simpl. rewrite IHb, IH, map_app. reflexivity.
  - rewrite IHa, IHb, map_app. reflexivity.
Qed.

Lemma matchesAt_canon (re : regex) (s : jsstr) :
  matchesAt re (map canon s) = matchesAt re s.
Proof. unfold matchesAt. rewrite run_canon. destruct (run re s); reflexivity. Qed.

Lemma test_canon (re : regex) (s : jsstr) : test re (map canon s) = test re s.
Proof.
  induction s as [|c s IH]; [reflexivity|].
  change (test re (map canon (c :: s)))
    with (matchesAt re (map canon (c :: s)) || test re (map canon s)).
  rewrite matchesAt_canon, IH. reflexivity.
Qed.

Lemma trimStart_canon (s : jsstr) : trimStart (map canon s) = map canon (trimStart s).
Proof.
  induction s as [|c s IH]; [reflexivity|]. simpl. rewrite isWhiteSpace_canon.
  destruct (isWhiteSpace c); [exact IH | reflexivity].
Qed.

Lemma trim_canon (s : jsstr) : trim (map canon s) = map canon (trim s).
Proof.
  unfold trim, trimEnd.
  rewrite trimStart_canon, <- map_rev, trimStart_canon, map_rev. reflexivity.
Qed.

Lemma existsb_test_canon (l : list regex) (t : jsstr) :
  existsb (fun re => test re (map canon t)) l = existsb (fun re => test re t) l.
Proof.
  induction l as [|re l IH]; [reflexivity|]. simpl. rewrite test_canon, IH. reflexivity.
Qed.

Lemma looksLikeFallback_canon (cfg : GateConfig) (s : jsstr) :
  looksLikeFallback cfg (map canon s) = looksLikeFallback cfg s.
Proof.
  destruct s as [|c s]; [reflexivity|].
  assert (E : forall u, looksLikeFallback cfg (c :: u) =
                        if (length (trim (c :: u)) =? 0)%nat then true
                        else if (lengthNum (trim (c :: u)) <? MIN_LEN cfg)%float then true
                        else existsb (fun re => test re (trim (c :: u))) FALLBACK_PATTERNS)
    by reflexivity.
  assert (E' : forall u, looksLikeFallback cfg (canon c :: u) =
                         if (length (trim (canon c :: u)) =? 0)%nat then true
                         else if (lengthNum (trim (canon c :: u)) <? MIN_LEN cfg)%float
                              then true
                              else existsb (fun re => test re (trim (canon c :: u)))
                                     FALLBACK_PATTERNS)
    by reflexivity.
  cbn [map]. rewrite E, E'.
  change (canon c :: map canon s) with (map canon (c :: s)).
  rewrite trim_canon, existsb_test_canon. unfold lengthNum. rewrite length_map.
  reflexivity.
Qed.

(** X8. The text check ignores the case of ASCII letters: two answers that
    differ only in the case of such letters get the same verdict of
    [looksLikeFallback], and so the same decision of the gate. *)
Theorem X8_text_check_ignores_case
    (rt : Runtime) (cfg : GateConfig) (answer answer' : jsstr) (sources chosen : value) :
  map canon answer = map canon answer' ->
  looksLikeFallback cfg answer = looksLikeFallback cfg answer'
  /\ passesStrictGate rt cfg answer sources chosen
     = passesStrictGate rt cfg answer' sources chosen.
Proof.
  intros H.
  assert (E : looksLikeFallback cfg answer = looksLikeFallback cfg answer').
  { rewrite <- (looksLikeFallback_canon cfg answer), H. apply looksLikeFallback_canon. }
  split; [exact E|]. unfold passesStrictGate. rewrite E. reflexivity.
Qed.

Lemma X8_witness :
  looksLikeFallback defaultConfig (js "SORRY, I COULD NOT FIND ANYTHING ABOUT THE VAULT IN THE DOCS")
  = looksLikeFallback defaultConfig (js "sorry, i could not find anything about the vault in the docs").
Proof.
  apply (X8_text_check_ignores_case asciiRuntime defaultConfig _ _ VUndefined VUndefined).
  reflexivity.
Defined.

(** ** The conversation map under every call *)

Lemma getConversationIdForUser_any (g : IdSource) (convoByUser : gmap jsstr jsstr)
    (userId : jsstr) :
  let '(convo', id) := getConversationIdForUser g convoByUser userId in
  id <> [] /\ convo' !! userId = Some id
  /\ (forall u, u <> userId -> convo' !! u = convoByUser !! u).
Proof.
  unfold getConversationIdForUser.
  destruct (convoByUser !! userId) as [[|c id]|] eqn:H.
  - split; [apply newId_nonempty|]. split; [apply lookup_insert_eq|].
    intros u Hu. apply lookup_insert_ne. congruence.
  - split; [discriminate|]. split; [exact H|]. reflexivity.
  - split; [apply newId_nonempty|]. split; [apply lookup_insert_eq|].
    intros u Hu. apply lookup_insert_ne. congruence.
Qed.

Lemma noEmptyIds_step (convoByUser convo' : gmap jsstr jsstr) (userId id : jsstr) :
  noEmptyIds convoByUser -> id <> [] -> convo' !! userId = Some id ->
  (forall u, u <> userId -> convo' !! u = convoByUser !! u) ->
  noEmptyIds convo'.
Proof.
  intros Hinv Hid Hu Hframe u id' H.
  destruct (decide (u = userId)) as [->|Hne].
  - rewrite Hu in H. injection H as <-. exact Hid.
  - rewrite (Hframe u Hne) in H. exact (Hinv u id' H).
Qed.

(** X9. Whatever the map holds, [getConversationIdForUser] returns an id
    that is not empty and is the one stored for the user afterwards (an empty
    stored id is replaced), it leaves the entries of all other users as they
    were, it keeps the map free of empty ids, and asking again returns the
    same id without changing the map. *)
Theorem X9_conversation_map_invariants
    (g g' : IdSource) (convoByUser : gmap jsstr jsstr) (userId : jsstr) :
  let convo' := fst (getConversationIdForUser g convoByUser userId) in
  let id := snd (getConversationIdForUser g convoByUser userId) in
  id <> []
  /\ convo' !! userId = Some id
  /\ (forall u, u <> userId -> convo' !! u = convoByUser !! u)
  /\ (noEmptyIds convoByUser -> noEmptyIds convo')
  /\ getConversationIdForUser g' convo' userId = (convo', id).
Proof.
  cbv zeta. pose proof (getConversationIdForUser_any g convoByUser userId) as H.
  destruct (getConversationIdForUser g convoByUser userId) as [convo' id].
  destruct H as (H1 & H2 & H3). simpl.
  split; [exact H1|]. split; [exact H2|]. split; [exact H3|]. split.
  - intros Hinv. exact (noEmptyIds_step _ _ _ _ Hinv H1 H2 H3).
  - apply getConversationIdForUser_stored; assumption.
Qed.

(** ** The API client, beyond its failures *)

Lemma askDocsBot_state (rt : Runtime) (cfg : GateConfig) (g : IdSource)
    (res : FetchResult) (convoByUser : gmap jsstr jsstr) (userId : jsstr) :
  fst (askDocsBot rt cfg g res convoByUser userId)
  = getConversationIdForUser g convoByUser userId.
Proof.
  unfold askDocsBot.
  destruct (getConversationIdForUser g convoByUser userId) as [convo' id]. reflexivity.
Qed.

(** X10. [askDocsBot] keeps a conversation going whatever the API does: the
    conversation id it sends is not empty and is the one stored for the user
    after the call, the entries of other users are not touched, and a second
    call for the same user sends the same id and leaves the map as it is,
    whatever the two fetches return and whatever the host would generate. *)
Theorem X10_askDocsBot_keeps_conversation
    (rt : Runtime) (cfg : GateConfig) (g g' : IdSource) (res res' : FetchResult)
    (convoByUser : gmap jsstr jsstr) (userId : jsstr) :
  let convo' := fst (fst (askDocsBot rt cfg g res convoByUser userId)) in
  let id := snd (fst (askDocsBot rt cfg g res convoByUser userId)) in
  id <> []
  /\ convo' !! userId = Some id
  /\ (forall u, u <> userId -> convo' !! u = convoByUser !! u)
  /\ fst (askDocsBot rt cfg g' res' convo' userId) = (convo', id).
Proof.
  cbv zeta. rewrite !askDocsBot_state.
  pose proof (getConversationIdForUser_any g convoByUser userId) as H.
  destruct (getConversationIdForUser g convoByUser userId) as [convo' id].
  destruct H as (H1 & H2 & H3). simpl.
  split; [exact H1|]. split; [exact H2|]. split; [exact H3|].
  apply getConversationIdForUser_stored; assumption.
Qed.

Lemma answerOf_trimmed (chosen : value) (a : jsstr) :
  answerOf chosen = Ret a -> trim a = a.
Proof.
  unfold answerOf.
  destruct (getOpt (getOpt chosen "data") "answer"); intros H; try discriminate;
    injection H as <-; try reflexivity.
  apply trim_idempotent.
Qed.

Lemma askDocsBot_try_Ret (rt : Runtime) (cfg : GateConfig) (res : FetchResult)
    (r : AnswerResult) :
  askDocsBot_try rt cfg res = Ret r ->
  r = noAnswer
  \/ exists status text events,
       res = Response true status (BodyText text (Ret (VArr events)))
       /\ isEmpty text || str_eqb text (js "null") = false
       /\ r_chosen r = chooseEvent events
       /\ answerOf (r_chosen r) = Ret (r_answer r)
       /\ r_sources r = sourcesOf (r_chosen r)
       /\ passesStrictGate rt cfg (r_answer r) (VArr (r_sources r)) (r_chosen r)
          = Ret (r_ok r).
Proof.
  destruct res as [e | [|] status [e | text [v | e]]]; simpl; try discriminate.
  - destruct (isEmpty text || str_eqb text (js "null")) eqn:Ht.
    + intros H. injection H as <-. left. reflexivity.
    + simpl. destruct v as [| | | | |events|]; try discriminate.
      destruct (answerOf (chooseEvent events)) as [a|e] eqn:Ha; [|discriminate]. simpl.
      destruct (passesStrictGate rt cfg a _ _) as [b|e] eqn:Hg; [|discriminate]. simpl.
      intros H. injection H as <-. right. exists status, text, events. simpl.
      repeat split; try reflexivity; assumption.
  - destruct (isEmpty text || str_eqb text (js "null")); [|discriminate].
    intros H. injection H as <-. left. reflexivity.
Qed.

(** X11. The answer [askDocsBot] returns is always trimmed, and [ok] is
    true only for a successful response whose body, neither empty nor
    "null", parsed to an array; the result then holds the chosen event of
    that array with its trimmed answer and its sources, and in strict mode
    that answer is not empty and matches no fallback pattern. *)
Theorem X11_ok_only_for_a_parsed_answer
    (rt : Runtime) (cfg : GateConfig) (g : IdSource) (res : FetchResult)
    (convoByUser : gmap jsstr jsstr) (userId : jsstr) :
  let r := snd (askDocsBot rt cfg g res convoByUser userId) in
  trim (r_answer r) = r_answer r
  /\ (r_ok r = true ->
      (exists status text events,
         res = Response true status (BodyText text (Ret (VArr events)))
         /\ isEmpty text || str_eqb text (js "null") = false
         /\ r_chosen r = chooseEvent events
         /\ answerOf (r_chosen r) = Ret (r_answer r)
         /\ r_sources r = sourcesOf (r_chosen r))
      /\ (STRICT cfg = true ->
          r_answer r <> []
          /\ existsb (fun re => test re (r_answer r)) FALLBACK_PATTERNS = false)).
Proof.
  cbv zeta. rewrite askDocsBot_result.
  destruct (askDocsBot_try rt cfg res) as [r|e] eqn:Htry; simpl;
    [|split; [reflexivity | discriminate]].
  destruct (askDocsBot_try_Ret rt cfg res r Htry)
    as [-> | (status & text & events & Hres & Ht & Hc & Ha & Hsrc & Hg)];
    [split; [reflexivity | discriminate]|].
  split; [exact (answerOf_trimmed _ _ Ha)|].
  intros Hok. split; [exists status, text, events; auto|].
  intros Hs. rewrite Hok in Hg. unfold passesStrictGate in Hg. rewrite Hs in Hg.
  simpl in Hg. destruct (looksLikeFallback cfg (r_answer r)) eqn:Hf; [discriminate|].
  destruct (looksLikeFallback_false _ _ Hf) as (H1 & _ & H3).
  split; [|exact H3]. intros E. rewrite E in H1. apply H1. reflexivity.
Qed.

Lemma X11_witness :
  r_answer (snd (askDocsBot asciiRuntime defaultConfig exampleIds
                   (Response true 200
                      (BodyText (js "[...]")
                         (Ret (VArr [lookupEvent (js "  " ++ goodAnswer ++ js "  ")
                                       threeSources 0.6]))))
                   ∅ (js "7"))) <> [].
Proof.
  apply (X11_ok_only_for_a_parsed_answer asciiRuntime defaultConfig exampleIds
           (Response true 200
              (BodyText (js "[...]")
                 (Ret (VArr [lookupEvent (js "  " ++ goodAnswer ++ js "  ")
                               threeSources 0.6]))))
           ∅ (js "7")); reflexivity.
Defined.

(** X12. A body that parses but is not what the client expects gives the
    no-answer result: a JSON value that is not an array, and an array whose
    chosen event has an [answer] that is not a string (a number, a boolean,
    a list or an object). *)
Theorem X12_unexpected_body_is_no_answer
    (rt : Runtime) (cfg : GateConfig) (g : IdSource)
    (convoByUser : gmap jsstr jsstr) (userId : jsstr)
    (status : N) (text : jsstr) (parsed : value) :
  isArray parsed = false
  \/ (exists events, parsed = VArr events
        /\ notText (getOpt (getOpt (chooseEvent events) "data") "answer") = true) ->
  snd (askDocsBot rt cfg g (Response true status (BodyText text (Ret parsed)))
         convoByUser userId) = noAnswer.
Proof.
  intros H. rewrite askDocsBot_result. simpl.
  destruct (isEmpty text || str_eqb text (js "null")); [reflexivity|]. simpl.
  destruct H as [H | [events [-> H]]].
  - destruct parsed; try discriminate; reflexivity.
  - unfold answerOf.
    destruct (getOpt (getOpt (chooseEvent events) "data") "answer");
      try discriminate; reflexivity.
Qed.

Lemma X12_witness :
  snd (askDocsBot asciiRuntime defaultConfig exampleIds
         (Response true 200
            (BodyText (js "{...}") (Ret (VObj [(js "error", VStr (js "quota"))]))))
         ∅ (js "7")) = noAnswer
  /\ snd (askDocsBot asciiRuntime defaultConfig exampleIds
            (Response true 200
               (BodyText (js "[...]")
                  (Ret (VArr [VObj [(js "event", VStr (js "answer"));
                                    (js "data", VObj [(js "answer", VNum 42)])]]))))
            ∅ (js "7")) = noAnswer.
Proof.
  split.
  - apply X12_unexpected_body_is_no_answer. left. reflexivity.
  - apply X12_unexpected_body_is_no_answer. right. eexists. split; reflexivity.
Defined.

(** ** The message handler by cases *)

Lemma onMessageCreate_ignored (rt : Runtime) (cfg : GateConfig)
    (autoChannels : gset jsstr) (w : World) (convoByUser : gmap jsstr jsstr)
    (msg : Message) :
  ignoredMessage rt autoChannels msg = true ->
  onMessageCreate rt cfg autoChannels w convoByUser msg = (convoByUser, []).
Proof.
  unfold ignoredMessage, isNewTopic, onMessageCreate.
  destruct (author_bot msg); [reflexivity|].
  destruct (str_eqb _ (js "new topic")); [discriminate|].
  destruct (mentionsBot msg), (bool_decide (channelId msg ∈ autoChannels)); simpl;
    try discriminate; try reflexivity.
  - rewrite orb_false_r. intros ->. reflexivity.
  - rewrite orb_false_r. intros ->. reflexivity.
  - intros ->. reflexivity.
Qed.

Lemma onMessageCreate_forwarded (rt : Runtime) (cfg : GateConfig)
    (autoChannels : gset jsstr) (w : World) (convoByUser : gmap jsstr jsstr)
    (msg : Message) :
  ignoredMessage rt autoChannels msg = false -> isNewTopic rt msg = false ->
  onMessageCreate rt cfg autoChannels w convoByUser msg =
  let a := askDocsBot rt cfg (ids w) (fetched w) convoByUser (author_id msg) in
  (fst (fst a),
   [SendTyping; Fetch (snd (fst a)) (questionOf msg)] ++ channelReply rt msg (snd a)).
Proof.
  unfold ignoredMessage, isNewTopic, onMessageCreate, channelReply, questionOf.
  destruct (author_bot msg); [discriminate|].
  destruct (str_eqb _ (js "new topic")); [discriminate|]. intros H _.
  destruct (mentionsBot msg), (bool_decide (channelId msg ∈ autoChannels));
    simpl in *; try discriminate.
  - rewrite orb_false_r in H. rewrite H.
    destruct (askDocsBot _ _ _ _ _ _) as [[convo' cid] r]. reflexivity.
  - rewrite orb_false_r in H. rewrite H.
    destruct (askDocsBot _ _ _ _ _ _) as [[convo' cid] r]. reflexivity.
  - rewrite H. destruct (askDocsBot _ _ _ _ _ _) as [[convo' cid] r]. reflexivity.
Qed.

Lemma onMessageCreate_reset (rt : Runtime) (cfg : GateConfig)
    (autoChannels : gset jsstr) (w : World) (convoByUser : gmap jsstr jsstr)
    (msg : Message) :
  author_bot msg = false -> isNewTopic rt msg = true ->
  onMessageCreate rt cfg autoChannels w convoByUser msg
  = (delete (author_id msg) convoByUser, [Reply newTopicReply]).
Proof.
  unfold isNewTopic, onMessageCreate. intros -> ->. reflexivity.
Qed.

Lemma channelReply_shape (rt : Runtime) (msg : Message) (r : AnswerResult) :
  channelReply rt msg r = []
  \/ exists text, channelReply rt msg r = [Send text] /\ length text <= 2000.
Proof.
  unfold channelReply. destruct (negb (r_ok r)); [left; reflexivity|].
  destruct (buildResponse _ _ _ _ _) as [text|e] eqn:Hb; [|left; reflexivity].
  right. exists text. split; [reflexivity | exact (buildResponse_bound _ _ _ _ _ _ Hb)].
Qed.

(** X13. The message handler stays silent, making no call and leaving the
    conversation map as it is, exactly when the author is a bot or, for a
    message that is not the reset command: the bot is neither mentioned nor
    in an auto-answer channel, or it is mentioned with nothing but mentions
    and white space, or the message of an auto-answer channel fails the
    question test. Every other message causes a call. *)
Theorem X13_when_a_message_is_ignored
    (rt : Runtime) (cfg : GateConfig) (autoChannels : gset jsstr) (w : World)
    (convoByUser : gmap jsstr jsstr) (msg : Message) :
  (snd (onMessageCreate rt cfg autoChannels w convoByUser msg) = []
   <-> ignoredMessage rt autoChannels msg = true)
  /\ (ignoredMessage rt autoChannels msg = true ->
      fst (onMessageCreate rt cfg autoChannels w convoByUser msg) = convoByUser).
Proof.
  split; [split|].
  - intros H. destruct (ignoredMessage rt autoChannels msg) eqn:Hi; [reflexivity|].
    destruct (isNewTopic rt msg) eqn:Hn.
    + assert (Hb : author_bot msg = false).
      { unfold ignoredMessage in Hi. destruct (author_bot msg); [discriminate|reflexivity]. }
      rewrite (onMessageCreate_reset _ _ _ _ _ _ Hb Hn) in H. discriminate.
    + rewrite (onMessageCreate_forwarded _ _ _ _ _ _ Hi Hn) in H. discriminate.
  - intros H. rewrite (onMessageCreate_ignored _ _ _ _ _ _ H). reflexivity.
  - intros H. rewrite (onMessageCreate_ignored _ _ _ _ _ _ H). reflexivity.
Qed.

(** X14. Whatever the message and whatever the API returns, the message
    handler does one of four things: nothing; the reset confirmation; the
    typing indicator and one API call; or those two followed by one channel
    message of at most 2000 code units. It never calls the API twice and
    never sends two messages. *)
Theorem X14_message_handler_effects
    (rt : Runtime) (cfg : GateConfig) (autoChannels : gset jsstr) (w : World)
    (convoByUser : gmap jsstr jsstr) (msg : Message) :
  let effects := snd (onMessageCreate rt cfg autoChannels w convoByUser msg) in
  effects = []
  \/ effects = [Reply newTopicReply]
  \/ (exists cid, effects = [SendTyping; Fetch cid (questionOf msg)])
  \/ (exists cid text,
        effects = [SendTyping; Fetch cid (questionOf msg); Send text]
        /\ length text <= 2000).
Proof.
  cbv zeta. destruct (ignoredMessage rt autoChannels msg) eqn:Hi.
  { left. rewrite (onMessageCreate_ignored _ _ _ _ _ _ Hi). reflexivity. }
  destruct (isNewTopic rt msg) eqn:Hn.
  { right. left.
    assert (Hb : author_bot msg = false).
    { unfold ignoredMessage in Hi. destruct (author_bot msg); [discriminate|reflexivity]. }
    rewrite (onMessageCreate_reset _ _ _ _ _ _ Hb Hn). reflexivity. }
  right. right. rewrite (onMessageCreate_forwarded _ _ _ _ _ _ Hi Hn). cbv zeta. simpl.
  destruct (channelReply_shape rt msg
              (snd (askDocsBot rt cfg (ids w) (fetched w) convoByUser (author_id msg))))
    as [-> | [text [-> Hlen]]].
  - left. eexists. reflexivity.
  - right. eexists. exists text. split; [reflexivity | exact Hlen].
Qed.



Lemma noEmptyIds_delete (convoByUser : gmap jsstr jsstr) (userId : jsstr) :
  noEmptyIds convoByUser -> noEmptyIds (delete userId convoByUser).
Proof.
  intros Hinv u id H. destruct (decide (u = userId)) as [->|Hne].
  - rewrite lookup_delete_eq in H. discriminate.
  - rewrite lookup_delete_ne in H by congruence. exact (Hinv u id H).
Qed.

Lemma askDocsBot_frame (rt : Runtime) (cfg : GateConfig) (g : IdSource)
    (res : FetchResult) (convoByUser : gmap jsstr jsstr) (userId : jsstr) :
  (forall u, u <> userId ->
     fst (fst (askDocsBot rt cfg g res convoByUser userId)) !! u = convoByUser !! u)
  /\ (noEmptyIds convoByUser ->
      noEmptyIds (fst (fst (askDocsBot rt cfg g res convoByUser userId)))).
Proof.
  rewrite askDocsBot_state.
  pose proof (getConversationIdForUser_any g convoByUser userId) as H.
  destruct (getConversationIdForUser g convoByUser userId) as [convo' id].
  destruct H as (H1 & H2 & H3). simpl. split; [exact H3|].
  intros Hinv. exact (noEmptyIds_step _ _ _ _ Hinv H1 H2 H3).
Qed.

(** X16. Both handlers touch the conversation map only at the entry of the
    user they serve: for every message and every command, the entries of all
    other users are as before, and a map without empty ids stays without
    them. *)
Theorem X16_handlers_touch_one_entry
    (rt : Runtime) (cfg : GateConfig) (autoChannels : gset jsstr) (w : World)
    (convoByUser : gmap jsstr jsstr) (msg : Message)
    (commandName userId question : jsstr) :
  (forall u, u <> author_id msg ->
     fst (onMessageCreate rt cfg autoChannels w convoByUser msg) !! u = convoByUser !! u)
  /\ (noEmptyIds convoByUser ->
      noEmptyIds (fst (onMessageCreate rt cfg autoChannels w convoByUser msg)))
  /\ (forall u, u <> userId ->
        fst (onInteractionCreate rt cfg w convoByUser commandName userId question) !! u
        = convoByUser !! u)
  /\ (noEmptyIds convoByUser ->
      noEmptyIds (fst (onInteractionCreate rt cfg w convoByUser commandName userId
                         question))).
Proof.
  assert (Hmsg : (forall u, u <> author_id msg ->
                    fst (onMessageCreate rt cfg autoChannels w convoByUser msg) !! u
                    = convoByUser !! u)
                 /\ (noEmptyIds convoByUser ->
                     noEmptyIds (fst (onMessageCreate rt cfg autoChannels w convoByUser
                                        msg)))).
  { destruct (ignoredMessage rt autoChannels msg) eqn:Hi.
    { rewrite (onMessageCreate_ignored _ _ _ _ _ _ Hi). simpl. auto. }
    destruct (isNewTopic rt msg) eqn:Hn.
    { assert (Hb : author_bot msg = false).
      { unfold ignoredMessage in Hi. destruct (author_bot msg); [discriminate|reflexivity]. }
      rewrite (onMessageCreate_reset _ _ _ _ _ _ Hb Hn). simpl. split.
      - intros u Hu. apply lookup_delete_ne. congruence.
      - apply noEmptyIds_delete. }
    rewrite (onMessageCreate_forwarded _ _ _ _ _ _ Hi Hn). cbv zeta. simpl.
    apply askDocsBot_frame. }
  destruct Hmsg as [H1 H2]. split; [exact H1|]. split; [exact H2|].
  unfold onInteractionCreate.
  destruct (negb (str_eqb commandName (js "ask"))); [simpl; auto|].
  pose proof (askDocsBot_frame rt cfg (ids w) (fetched w) convoByUser userId) as Hf.
  destruct (askDocsBot _ _ _ _ _ _) as [[convo' cid] r]. exact Hf.
Qed.

(** X17. The reset really starts a new conversation: after a user's
    "new topic" message, that user's next forwarded question is sent with the
    id the host generates at that moment, which is then the stored one,
    whatever id the user had before. *)
Theorem X17_reset_then_ask
    (rt : Runtime) (cfg : GateConfig) (autoChannels : gset jsstr) (w1 w2 : World)
    (convoByUser : gmap jsstr jsstr) (reset ask : Message) :
  author_bot reset = false -> isNewTopic rt reset = true ->
  author_id ask = author_id reset ->
  ignoredMessage rt autoChannels ask = false -> isNewTopic rt ask = false ->
  let convo1 := fst (onMessageCreate rt cfg autoChannels w1 convoByUser reset) in
  exists rest,
    snd (onMessageCreate rt cfg autoChannels w2 convo1 ask)
    = SendTyping :: Fetch (newId (ids w2)) (questionOf ask) :: rest
    /\ fst (onMessageCreate rt cfg autoChannels w2 convo1 ask) !! author_id ask
       = Some (newId (ids w2)).
Proof.
  intros Hb Hn Ha Hi Hn2. cbv zeta.
  rewrite (onMessageCreate_reset _ _ _ _ _ _ Hb Hn). simpl.
  rewrite (onMessageCreate_forwarded _ _ _ _ _ _ Hi Hn2). cbv zeta. simpl.
  rewrite askDocsBot_state, Ha.
  rewrite getConversationIdForUser_fresh by apply lookup_delete_eq. simpl.
  eexists. split; [reflexivity | apply lookup_insert_eq].
Qed.

Lemma X17_witness :
  exists rest,
    snd (onMessageCreate asciiRuntime defaultConfig channel42
           {| ids := legacyIds; fetched := FetchFails NetworkError |}
           (fst (onMessageCreate asciiRuntime defaultConfig channel42 answeringWorld
                   twoUsers newTopicMessage))
           (mentionMessage "<@123> what is the vault?"))
    = SendTyping :: Fetch (js "1700000000000-0.25") (js "what is the vault?") :: rest.
Proof.
  destruct (X17_reset_then_ask asciiRuntime defaultConfig channel42 answeringWorld
              {| ids := legacyIds; fetched := FetchFails NetworkError |}
              twoUsers newTopicMessage (mentionMessage "<@123> what is the vault?")
              eq_refl eq_refl eq_refl eq_refl eq_refl) as [rest [H _]].
  exists rest. exact H.
Defined.

(** X18. A result that is not ok is silent in a channel and explicit on a
    command: when the API call fails, returns an empty or "null" body or an
    answer the gate rejects, a forwarded message gets the typing indicator
    and nothing else, and the command gets the no-confident-answer notice. *)
Theorem X18_not_ok_is_silent_or_notice
    (rt : Runtime) (cfg : GateConfig) (autoChannels : gset jsstr) (w : World)
    (convoByUser : gmap jsstr jsstr) (msg : Message) (userId question : jsstr) :
  (hardFailure (fetched w) = true
   \/ exists status text parsed,
        fetched w = Response true status (BodyText text parsed)
        /\ isEmpty text || str_eqb text (js "null") = true) ->
  (ignoredMessage rt autoChannels msg = false -> isNewTopic rt msg = false ->
   exists cid,
     snd (onMessageCreate rt cfg autoChannels w convoByUser msg)
     = [SendTyping; Fetch cid (questionOf msg)])
  /\ exists cid,
       snd (onInteractionCreate rt cfg w convoByUser (js "ask") userId question)
       = [DeferReply; Fetch cid question; EditReplyContent noConfidentAnswer].
Proof.
  intros Hfail.
  assert (Hno : forall u, snd (askDocsBot rt cfg (ids w) (fetched w) convoByUser u)
                          = noAnswer).
  { intros u. rewrite askDocsBot_result.
    destruct Hfail as [H | (status & text & parsed & -> & H)].
    - destruct (askDocsBot_try_hardFailure rt cfg _ H) as [e ->]. reflexivity.
    - rewrite (askDocsBot_try_null_body rt cfg status text parsed H). reflexivity. }
  split.
  - intros Hi Hn. rewrite (onMessageCreate_forwarded _ _ _ _ _ _ Hi Hn). cbv zeta. simpl.
    rewrite Hno. eexists. reflexivity.
  - unfold onInteractionCreate. simpl.
    specialize (Hno userId).
    destruct (askDocsBot _ _ _ _ _ _) as [[convo' cid] r]. simpl in Hno. subst r.
    eexists. reflexivity.
Qed.

Lemma X18_witness :
  exists cid,
    snd (onMessageCreate asciiRuntime defaultConfig channel42 timeoutWorld ∅
           (ambientMessage "what is the staking APY?"))
    = [SendTyping; Fetch cid (js "what is the staking APY?")].
Proof.
  apply (X18_not_ok_is_silent_or_notice asciiRuntime defaultConfig channel42 timeoutWorld ∅
           (ambientMessage "what is the staking APY?") (js "7") (js "q")
           (or_introl eq_refl)); reflexivity.
Defined.

(** X19. The command handler answers every [ask] command exactly once: it
    defers, calls the API once and edits the reply once, with the
    no-confident-answer notice, with an embed whose description has at most
    4000 code units and whose source block, if any, has at most 1024, or
    with the error message when the embed cannot be built. A command of
    another name causes nothing. *)
Theorem X19_command_handler_effects
    (rt : Runtime) (cfg : GateConfig) (w : World) (convoByUser : gmap jsstr jsstr)
    (commandName userId question : jsstr) :
  (commandName <> js "ask" ->
   onInteractionCreate rt cfg w convoByUser commandName userId question
   = (convoByUser, []))
  /\ exists cid last,
       snd (onInteractionCreate rt cfg w convoByUser (js "ask") userId question)
       = [DeferReply; Fetch cid question; last]
       /\ (last = EditReplyContent noConfidentAnswer
           \/ last = EditReplyContent errorMsg
           \/ exists embed,
                last = EditReplyEmbed embed
                /\ length (description embed) <= 4000
                /\ forall block, sourcesField embed = Some block -> length block <= 1024).
Proof.
  split.
  - intros Hne. unfold onInteractionCreate, str_eqb.
    rewrite bool_decide_eq_false_2 by exact Hne. reflexivity.
  - unfold onInteractionCreate. simpl.
    destruct (askDocsBot _ _ _ _ _ _) as [[convo' cid] r]. simpl.
    exists cid.
    destruct (negb (r_ok r)); [eexists; split; [reflexivity | left; reflexivity]|].
    destruct (buildEmbed rt (r_answer r) (r_sources r)) as [embed|e] eqn:Hb;
      [|eexists; split; [reflexivity | right; left; reflexivity]].
    eexists. split; [reflexivity|].
    right. right. exists embed. split; [reflexivity|].
    unfold buildEmbed in Hb.
    destruct (sourceList rt (r_sources r)) as [field|err] eqn:Hf; [|discriminate].
    simpl in Hb. injection Hb as <-. simpl. split; [apply length_slice0|].
    intros block ->. apply (sourceList_bounds rt _ block Hf).
Qed.

(** ** Formatting: missing fields and null sources *)

Lemma mapM_outcome_throws {A B} (f : A -> outcome B) (l : list A) (x : A) (e : error) :
  In x l -> f x = Throw e -> exists e', mapM f l = Throw e'.
Proof.
  induction l as [|y l IH]; intros Hin Hx; [contradiction|]. simpl.
  destruct Hin as [-> | Hin].
  - rewrite Hx. simpl. eauto.
  - destruct (f y) as [b|e0]; simpl; [|eauto].
    destruct (IH Hin Hx) as [e' ->]. simpl. eauto.
Qed.

Lemma sourceLine_bare (rt : Runtime) (s : value) :
  isNullish s = false -> blank s "title" = true -> blank s "url" = true ->
  sourceLine rt s = Ret bareLine.
Proof.
  unfold blank, falsy, sourceLine, getDot, or_. intros Hn Ht Hu.
  apply negb_true_iff in Ht. apply negb_true_iff in Hu.
  rewrite Hn. simpl. rewrite Ht. simpl. rewrite Hu. reflexivity.
Qed.

(** X20. In an embed a source without a usable title and url is listed as
    "[Source](#)", whatever else it holds; only the first five sources are
    looked at, so a null entry among them makes the embed fail (and the
    command handler then shows the error message), while one after them
    changes nothing. *)
Theorem X20_embed_sources
    (rt : Runtime) (answer : jsstr) (sources more : list value) (s : value) :
  (isNullish s = false -> blank s "title" = true -> blank s "url" = true ->
   sourceLine rt s = Ret bareLine)
  /\ (In s (firstn 5 sources) -> isNullish s = true ->
      exists e, buildEmbed rt answer sources = Throw e)
  /\ (5 <= length sources ->
      buildEmbed rt answer (sources ++ more) = buildEmbed rt answer sources).
Proof.
  split; [apply sourceLine_bare|]. split.
  - intros Hin Hn. unfold buildEmbed, sourceList.
    destruct sources as [|s0 sources]; [destruct Hin|].
    change (0 <? length (s0 :: sources))%nat with true. cbv iota.
    destruct (mapM_outcome_throws (sourceLine rt) _ s TypeError Hin) as [e He].
    { unfold sourceLine, getDot. rewrite Hn. reflexivity. }
    rewrite He. simpl. eauto.
  - intros Hlen. unfold buildEmbed, sourceList.
    rewrite firstn_app.
    replace (5 - length sources) with 0 by lia. rewrite app_nil_r.
    assert (H1 : (0 <? length sources)%nat = true) by (apply Nat.ltb_lt; lia).
    assert (H2 : (0 <? length (sources ++ more))%nat = true).
    { apply Nat.ltb_lt. rewrite length_app. lia. }
    rewrite H1, H2. reflexivity.
Qed.

Lemma X20_witness :
  sourceLine asciiRuntime bareSource = Ret bareLine
  /\ (exists e, buildEmbed asciiRuntime goodAnswer [docSource "A" "https://a"; VNull]
                = Throw e).
Proof.
  split.
  - apply (X20_embed_sources asciiRuntime [] [] [] bareSource); reflexivity.
  - apply (X20_embed_sources asciiRuntime goodAnswer [docSource "A" "https://a"; VNull]
             [] VNull); [right; left; reflexivity | reflexivity].
Defined.

Lemma sourceLink_blank (s : value) :
  isNullish s = false -> blank s "title" = true -> blank s "url" = true ->
  exists v, sourceLink s = Ret v /\ truthy v = false.
Proof.
  unfold blank, falsy, sourceLink, getDot. intros Hn Ht Hu.
  apply negb_true_iff in Ht. apply negb_true_iff in Hu.
  rewrite Hn. simpl. rewrite Hu. eauto.
Qed.

(** The channel message without a source block. *)
Lemma buildResponse_no_links (rt : Runtime) (authorId question answer : jsstr)
    (sources : list value) :
  forallb (fun s => negb (isNullish s) && blank s "title" && blank s "url") sources = true ->
  buildResponse rt authorId question answer sources
  = buildResponse rt authorId question answer [].
Proof.
  intros H. unfold buildResponse. cbv zeta.
  destruct (0 <? length sources)%nat; [|reflexivity].
  destruct (mapM_outcome_Forall sourceLink (fun v => truthy v = false) sources)
    as [links [Hl Hlinks]].
  { apply List.Forall_forall. intros s Hs. rewrite forallb_forall in H.
    specialize (H s Hs). apply andb_true_iff in H as [H Hu].
    apply andb_true_iff in H as [Hn Ht]. apply negb_true_iff in Hn.
    apply sourceLink_blank; assumption. }
  rewrite Hl. simpl.
  assert (E : List.filter truthy links = []).
  { clear Hl. induction Hlinks as [|v l Hv _ IH]; [reflexivity|].
    simpl. rewrite Hv. exact IH. }
  rewrite E. reflexivity.
Qed.

(** X21. In a channel message the sources without a usable url and title
    are left out, and when none is left there is no "Sources" block at all:
    the message is the one built without sources. A null source makes the
    message fail, and the handler then sends nothing although the answer was
    accepted. *)
Theorem X21_channel_message_sources
    (rt : Runtime) (autoChannels : gset jsstr) (cfg : GateConfig) (w : World)
    (convoByUser : gmap jsstr jsstr) (msg : Message)
    (authorId question answer : jsstr) (sources : list value) :
  (forallb (fun s => negb (isNullish s) && blank s "title" && blank s "url") sources = true ->
   buildResponse rt authorId question answer sources
   = buildResponse rt authorId question answer [])
  /\ (existsb isNullish sources = true ->
      exists e, buildResponse rt authorId question answer sources = Throw e)
  /\ (existsb isNullish
        (r_sources (snd (askDocsBot rt cfg (ids w) (fetched w) convoByUser
                           (author_id msg)))) = true ->
      existsb (fun e => match e with Send _ => true | _ => false end)
        (snd (onMessageCreate rt cfg autoChannels w convoByUser msg)) = false).
Proof.
  assert (Hthrow : forall a q ans srcs,
            existsb isNullish srcs = true ->
            exists e, buildResponse rt a q ans srcs = Throw e).
  { intros a q ans srcs H. apply existsb_exists in H as [s [Hin Hn]].
    unfold buildResponse. cbv zeta.
    destruct srcs as [|s0 srcs]; [destruct Hin|].
    change (0 <? length (s0 :: srcs))%nat with true. cbv iota.
    destruct (mapM_outcome_throws sourceLink _ s TypeError Hin) as [e He].
    { unfold sourceLink, getDot. rewrite Hn. reflexivity. }
    rewrite He. simpl. eauto. }
  split; [apply buildResponse_no_links|]. split; [apply Hthrow|].
  intros Hnull.
  destruct (ignoredMessage rt autoChannels msg) eqn:Hi.
  { rewrite (onMessageCreate_ignored _ _ _ _ _ _ Hi). reflexivity. }
  destruct (isNewTopic rt msg) eqn:Hn.
  { assert (Hb : author_bot msg = false).
    { unfold ignoredMessage in Hi. destruct (author_bot msg); [discriminate|reflexivity]. }
    rewrite (onMessageCreate_reset _ _ _ _ _ _ Hb Hn). reflexivity. }
  rewrite (onMessageCreate_forwarded _ _ _ _ _ _ Hi Hn). cbv zeta. simpl.
  unfold channelReply. destruct (negb (r_ok _)); [reflexivity|].
  destruct (Hthrow (author_id msg) (questionOf msg)
              (r_answer (snd (askDocsBot rt cfg (ids w) (fetched w) convoByUser
                                (author_id msg)))) _ Hnull) as [e ->].
  reflexivity.
Qed.

Lemma X21_witness :
  buildResponse asciiRuntime (js "7") (js "why?") goodAnswer [bareSource; bareSource]
  = Ret (js "<@7>" ++ [10; 10]%N ++ js "**why?**" ++ [10; 10]%N ++ goodAnswer)
  /\ existsb (fun e => match e with Send _ => true | _ => false end)
       (snd (onMessageCreate asciiRuntime defaultConfig channel42
               (worldWith (VArr [lookupEvent goodAnswer [docSource "A" "https://a"; VNull] 0.9]))
               ∅ (ambientMessage "what is the staking APY?"))) = false.
Proof.
  split.
  - rewrite (proj1 (X21_channel_message_sources asciiRuntime channel42 defaultConfig
                      answeringWorld ∅ newTopicMessage (js "7") (js "why?") goodAnswer
                      [bareSource; bareSource])); reflexivity.
  - apply (X21_channel_message_sources asciiRuntime channel42 defaultConfig
             (worldWith (VArr [lookupEvent goodAnswer [docSource "A" "https://a"; VNull] 0.9]))
             ∅ (ambientMessage "what is the staking APY?") [] [] [] []).
    reflexivity.
Defined.

(** ** Mention stripping *)

Lemma stripMentionsFrom_length (n : nat) (s : jsstr) :
  length (stripMentionsFrom n s) <= length s.
Proof.
  revert s. induction n as [|n IH]; intros s.
  - destruct s; simpl; lia.
  - destruct s as [|c r]; [simpl; lia|]. cbn [stripMentionsFrom].
    destruct (mentionAt (c :: r)) as [rest|] eqn:Hat.
    + apply mentionAt_shorter in Hat. specialize (IH rest). lia.
    + specialize (IH r). simpl. lia.
Qed.

Lemma mentionAt_needs_lt (s : jsstr) : ~ In 60%N s -> mentionAt s = None.
Proof.
  intros H. destruct s as [|a [|b r]]; try reflexivity. unfold mentionAt.
  destruct (a =? 60)%N eqn:Ha; [|reflexivity].
  apply N.eqb_eq in Ha. exfalso. apply H. left. exact Ha.
Qed.

Lemma stripMentionsFrom_plain (n : nat) (s : jsstr) :
  ~ In 60%N s -> stripMentionsFrom n s = s.
Proof.
  revert s. induction n as [|n IH]; intros s H.
  - destruct s; reflexivity.
  - destruct s as [|c r]; [reflexivity|]. cbn [stripMentionsFrom].
    rewrite (mentionAt_needs_lt _ H). f_equal. apply IH.
    intros Hin. apply H. right. exact Hin.
Qed.

Lemma stripMentions_step (s rest : jsstr) :
  mentionAt s = Some rest -> stripMentions s = stripMentions rest.
Proof.
  intros H. pose proof (mentionAt_shorter _ _ H) as Hlen.
  unfold stripMentions at 1. destruct s as [|c r]; [discriminate|].
  cbn [length stripMentionsFrom]. rewrite H.
  apply stripMentions_fuel. simpl in Hlen. lia.
Qed.

Lemma dropDigits_app (digits rest : jsstr) :
  forallb isDigit digits = true -> dropDigits (digits ++ 62%N :: rest) = 62%N :: rest.
Proof.
  induction digits as [|d digits IH]; intros H; [reflexivity|].
  simpl in *. apply andb_true_iff in H as [Hd H]. rewrite Hd. apply IH. exact H.
Qed.

Lemma mentionAt_literal (bang : bool) (digits rest : jsstr) :
  digits <> [] -> forallb isDigit digits = true ->
  mentionAt (js "<@" ++ (if bang then js "!" else []) ++ digits ++ js ">" ++ rest)
  = Some rest.
Proof.
  intros Hne Hd. destruct digits as [|d digits]; [contradiction|].
  pose proof (dropDigits_app (d :: digits) rest Hd) as Hdrop.
  simpl in Hd. apply andb_true_iff in Hd as [Hd0 Hd].
  assert (Hd33 : (d =? 33)%N = false).
  { unfold isDigit in Hd0. apply andb_true_iff in Hd0 as [H1 _].
    apply N.leb_le in H1. apply N.eqb_neq. lia. }
  cbn [app] in Hdrop.
  destruct bang.
  - change (js "<@" ++ js "!" ++ (d :: digits) ++ js ">" ++ rest)
      with (60%N :: 64%N :: 33%N :: d :: digits ++ 62%N :: rest).
    unfold mentionAt.
    change ((60 =? 60)%N && (64 =? 64)%N) with true.
    change (33 =? 33)%N with true. cbv iota.
    rewrite Hd0, Hdrop. reflexivity.
  - change (js "<@" ++ [] ++ (d :: digits) ++ js ">" ++ rest)
      with (60%N :: 64%N :: d :: digits ++ 62%N :: rest).
    unfold mentionAt.
    change ((60 =? 60)%N && (64 =? 64)%N) with true. cbv iota.
    rewrite Hd33, Hd0, Hdrop. reflexivity.
Qed.

(** X22. Removing the mentions never lengthens a text and leaves a text
    without "<" as it is; a mention at the start, "<@", an optional "!",
    one or more digits and ">", is removed whole, and the rest is then
    treated the same way. *)
Theorem X22_stripMentions
    (s digits rest : jsstr) (bang : bool) :
  length (stripMentions s) <= length s
  /\ (~ In 60%N s -> stripMentions s = s)
  /\ (digits <> [] -> forallb isDigit digits = true ->
      stripMentions (js "<@" ++ (if bang then js "!" else []) ++ digits ++ js ">" ++ rest)
      = stripMentions rest).
Proof.
  split; [apply stripMentionsFrom_length|].
  split; [apply stripMentionsFrom_plain|].
  intros Hne Hd. apply stripMentions_step. apply mentionAt_literal; assumption.
Qed.

Lemma X22_witness :
  stripMentions (js "<@!123456>" ++ js " what is the vault?") = js " what is the vault?".
Proof.
  transitivity (stripMentions (js " what is the vault?")).
  - apply (proj2 (proj2 (X22_stripMentions [] (js "123456") (js " what is the vault?") true)));
      [discriminate | reflexivity].
  - apply (X22_stripMentions (js " what is the vault?") [] [] false).
    vm_compute. intuition discriminate.
Defined.

(** ** The earlier copy of the bridge *)

Lemma startsWith_split (s p : jsstr) :
  startsWith s p = true -> exists r, s = p ++ r.
Proof.
  revert s. induction p as [|a p IH]; intros s H.
  - exists s. reflexivity.
  - destruct s as [|c s]; [discriminate|]. simpl in H.
    apply andb_true_iff in H as [Hac H]. apply N.eqb_eq in Hac. subst c.
    destruct (IH s H) as [r ->]. exists r. reflexivity.
Qed.

(** X23. The two copies of the question test differ only on "does": for a
    text that starts neither with "does " nor with "does, " they give the
    same verdict; a text that starts with "does " always passes the earlier
    copy, and passes the strict-answer copy only if it also holds a question
    mark or a keyword. *)
Theorem X23_question_test_copies (text : jsstr) :
  (startsWith text (js "does ") = false -> startsWith text (js "does, ") = false ->
   Legacy.ambientSkips text = ambientSkips text)
  /\ (startsWith text (js "does ") = true ->
      Legacy.ambientSkips text = false
      /\ ambientSkips text = negb (includes text (js "?")) && negb (hasKeywords text)).
Proof.
  split.
  - intros H1 H2. unfold Legacy.ambientSkips, ambientSkips.
    assert (E : Legacy.hasQuestion text = hasQuestion text).
    { unfold Legacy.hasQuestion, hasQuestion.
      unfold Legacy.questionIndicators, questionIndicators.
      cbn [map existsb].
      change (startsWith text (js "does" ++ js " ")) with (startsWith text (js "does ")).
      change (startsWith text (js "does," ++ js " ")) with (startsWith text (js "does, ")).
      rewrite H1, H2. reflexivity. }
    rewrite E. reflexivity.
  - intros H. apply startsWith_split in H as [rest ->].
    split.
    + unfold Legacy.ambientSkips, Legacy.hasQuestion.
      change (length (js "does " ++ rest) <? 5)%nat with false.
      change (startsWith (js "does " ++ rest) (js "!")
              || startsWith (js "does " ++ rest) (js "/")
              || startsWith (js "does " ++ rest) (js ".")) with false.
      assert (Hskip : existsb (fun word => str_eqb (js "does " ++ rest) word
                                            || startsWith (js "does " ++ rest) (word ++ js " "))
                        skipWords = false) by (vm_compute; reflexivity).
      assert (Hind : existsb (fun w => startsWith (js "does " ++ rest) (w ++ js " "))
                       Legacy.questionIndicators = true)
        by (destruct rest; vm_compute; reflexivity).
      rewrite Hskip, Hind, orb_true_r. reflexivity.
    + unfold ambientSkips, hasQuestion.
      change (length (js "does " ++ rest) <? 5)%nat with false.
      change (startsWith (js "does " ++ rest) (js "!")
              || startsWith (js "does " ++ rest) (js "/")
              || startsWith (js "does " ++ rest) (js ".")) with false.
      assert (Hskip : existsb (fun word => str_eqb (js "does " ++ rest) word
                                            || startsWith (js "does " ++ rest) (word ++ js " "))
                        skipWords = false) by (vm_compute; reflexivity).
      assert (Hind : existsb (fun w => startsWith (js "does " ++ rest) (w ++ js " "))
                       questionIndicators = false) by (vm_compute; reflexivity).
      rewrite Hskip, Hind, orb_false_r. reflexivity.
Qed.

Lemma X23_witness :
  Legacy.ambientSkips (js "does it work well") = false
  /\ ambientSkips (js "does it work well") = true
  /\ Legacy.ambientSkips (js "is it working well") = ambientSkips (js "is it working well").
Proof.
  destruct (X23_question_test_copies (js "does it work well")) as [_ H].
  destruct (H eq_refl) as [H1 H2].
  split; [exact H1|]. split; [rewrite H2; reflexivity|].
  apply (proj1 (X23_question_test_copies (js "is it working well"))); reflexivity.
Defined.

Lemma legacy_try_Ret (res : FetchResult) (answer : jsstr) (sources : list value) :
  Legacy.askDocsBot_try res = Ret (answer, sources) -> answer <> [].
Proof.
  destruct res as [e | [|] status [e | text [v | e]]]; simpl; try discriminate.
  - destruct (isEmpty text || str_eqb text (js "null")).
    + intros H. injection H as <- _. discriminate.
    + simpl. destruct v as [| | | | |events|]; try discriminate.
      destruct (answerOf (chooseEvent events)) as [[|c a]|e]; simpl; try discriminate.
      * intros H. injection H as <- _. discriminate.
      * intros H. injection H as <- _. discriminate.
  - destruct (isEmpty text || str_eqb text (js "null")); [|discriminate].
    intros H. injection H as <- _. discriminate.
Qed.

(** X24. In the earlier copy [askDocsBot] tells three outcomes apart: every
    hard failure is rethrown to the caller; an empty or "null" body returns
    the "still initializing" text with no sources; and any other result it
    returns has an answer that is not empty (the "could not find an answer"
    text when the chosen event has none). *)
Theorem X24_legacy_askDocsBot_outcomes
    (g : IdSource) (res : FetchResult) (convoByUser : gmap jsstr jsstr) (userId : jsstr) :
  (hardFailure res = true ->
   exists e, snd (Legacy.askDocsBot g res convoByUser userId) = Throw e)
  /\ (forall status text parsed,
        res = Response true status (BodyText text parsed) ->
        isEmpty text || str_eqb text (js "null") = true ->
        snd (Legacy.askDocsBot g res convoByUser userId)
        = Ret (Legacy.initializingAnswer, []))
  /\ (forall answer sources,
        snd (Legacy.askDocsBot g res convoByUser userId) = Ret (answer, sources) ->
        answer <> [])
  /\ (forall status text events,
        res = Response true status (BodyText text (Ret (VArr events))) ->
        isEmpty text || str_eqb text (js "null") = false ->
        answerOf (chooseEvent events) = Ret [] ->
        snd (Legacy.askDocsBot g res convoByUser userId)
        = Ret (Legacy.notFoundAnswer, sourcesOf (chooseEvent events))).
Proof.
  assert (E : snd (Legacy.askDocsBot g res convoByUser userId) = Legacy.askDocsBot_try res).
  { unfold Legacy.askDocsBot.
    destruct (getConversationIdForUser g convoByUser userId). reflexivity. }
  rewrite E. split; [|split; [|split]].
  - destruct res as [e | [|] status [e | text [v | e]]]; simpl; intros H;
      try discriminate; eauto.
    apply negb_true_iff in H. rewrite H. simpl. eauto.
  - intros status text parsed -> H. simpl. rewrite H. reflexivity.
  - apply legacy_try_Ret.
  - intros status text events -> H Ha. simpl. rewrite H. simpl. rewrite Ha. reflexivity.
Qed.

Lemma X24_witness :
  (exists e, snd (Legacy.askDocsBot exampleIds (FetchFails AbortError) ∅ (js "7")) = Throw e)
  /\ snd (Legacy.askDocsBot exampleIds (Response true 200 (BodyText (js "null") (Ret VNull)))
            ∅ (js "7")) = Ret (Legacy.initializingAnswer, []).
Proof.
  split.
  - apply (X24_legacy_askDocsBot_outcomes exampleIds (FetchFails AbortError) ∅ (js "7")).
    reflexivity.
  - apply (proj1 (proj2 (X24_legacy_askDocsBot_outcomes exampleIds
                           (Response true 200 (BodyText (js "null") (Ret VNull)))
                           ∅ (js "7")))
             200%N (js "null") (Ret VNull)); reflexivity.
Defined.





(** X26. In the earlier copy the command handler has no gate and no
    notice: it answers every [ask] command with one edit, which is the error
    message when the API call fails and otherwise, for well-formed sources,
    an embed that shows the first 4000 code units of the answer, whatever
    its wording (the "still initializing" text for an empty or "null"
    body). *)
Theorem X26_legacy_command_handler
    (rt : Runtime) (w : World) (convoByUser : gmap jsstr jsstr)
    (userId question : jsstr) :
  (hardFailure (fetched w) = true ->
   exists cid,
     snd (Legacy.onInteractionCreate rt w convoByUser (js "ask") userId question)
     = [DeferReply; Fetch cid question; EditReplyContent errorMsg])
  /\ (forall answer sources,
        Legacy.askDocsBot_try (fetched w) = Ret (answer, sources) ->
        forallb plainSource sources = true ->
        exists cid embed,
          snd (Legacy.onInteractionCreate rt w convoByUser (js "ask") userId question)
          = [DeferReply; Fetch cid question; EditReplyEmbed embed]
          /\ description embed = slice0 4000 answer
          /\ description embed <> []).
Proof.
  unfold Legacy.onInteractionCreate, Legacy.askDocsBot. simpl.
  destruct (getConversationIdForUser (ids w) convoByUser userId) as [convo' cid].
  split.
  - intros Hf. exists cid.
    assert (Ht : exists e, Legacy.askDocsBot_try (fetched w) = Throw e).
    { destruct (fetched w) as [e | [|] status [e | text [v | e]]]; simpl in *;
        try discriminate; eauto.
      apply negb_true_iff in Hf. rewrite Hf. simpl. eauto. }
    destruct Ht as [e ->]. reflexivity.
  - intros answer sources Hr Hplain. rewrite Hr. simpl.
    pose proof (legacy_try_Ret _ _ _ Hr) as Hne.
    exists cid. unfold Legacy.buildEmbed, Legacy.sourceList.
    assert (Hdesc : slice0 4000 answer <> []).
    { destruct answer; [contradiction | discriminate]. }
    destruct (0 <? length sources)%nat.
    + destruct (mapM_outcome_Forall (sourceLine rt) (fun _ => True) (firstn 5 sources))
        as [lines [Hl _]].
      { apply List.Forall_forall. intros s Hs. apply sourceLine_plain.
        rewrite forallb_forall in Hplain. apply Hplain.
        eapply In_firstn_inv; exact Hs. }
      rewrite Hl. simpl. eexists. split; [reflexivity|]. split; [reflexivity | exact Hdesc].
    + simpl. eexists. split; [reflexivity|]. split; [reflexivity | exact Hdesc].
Qed.

Lemma X26_witness :
  exists cid,
    snd (Legacy.onInteractionCreate asciiRuntime timeoutWorld ∅ (js "ask") (js "7")
           (js "What is the reward vault?"))
    = [DeferReply; Fetch cid (js "What is the reward vault?"); EditReplyContent errorMsg].
Proof.
  apply (X26_legacy_command_handler asciiRuntime timeoutWorld ∅ (js "7")
           (js "What is the reward vault?")). reflexivity.
Defined.
